(** * Notebook output renderers: dispatch, trust gate, stream coalescing, disposal

    A shallow embedding of [extensions/notebook-renderers/src/index.ts].
    The document is a heap of nodes addressed by index, so that the
    aliasing the renderers rely on (a surface, its parent slot, the slot
    before it) is kept.  Code that touches the document, the object URL
    store, the console or the registry of disposables runs in a small
    state-and-exception monad. *)

From Stdlib Require Import ZArith Lia Ascii.
From stdpp Require Import base list strings pretty.

Open Scope string_scope.
Open Scope list_scope.

(** ** JavaScript values as far as the renderers meet them *)

Module Js.

(** The n-th string handed out by [URL.createObjectURL]. *)
Abbreviation ObjectURL := nat.

Inductive Val :=
| VUndefined
| VNull
| VBool (b : bool)
| VStr (s : string)
| VObjectURL (u : ObjectURL).

(** ToBoolean *)
Definition truthy (v : Val) : bool :=
  match v with
  | VUndefined | VNull => false
  | VBool b => b
  | VStr s => negb (String.eqb s "")
  | VObjectURL _ => true
  end.

(** ToString *)
Definition toString (v : Val) : string :=
  match v with
  | VUndefined => "undefined"
  | VNull => "null"
  | VBool true => "true"
  | VBool false => "false"
  | VStr s => s
  | VObjectURL u => "blob:" +:+ pretty u
  end.

(** [a || b] on values already computed *)
Definition or_else (a b : Val) : Val := if truthy a then a else b.

(** A string-or-null result as a value. *)
Definition of_option (o : option string) : Val :=
  match o with Some s => VStr s | None => VNull end.

(** Truthiness of an optional string field ([undefined] when absent). *)
Definition present (o : option string) : bool :=
  match o with Some s => negb (String.eqb s "") | None => false end.

Inductive Exn :=
| TypeError (msg : string)
| SyntaxError (msg : string)
| HierarchyRequestError
| NotFoundError.

Definition lower_ascii (c : ascii) : ascii :=
  let n := nat_of_ascii c in
  if (65 <=? n)%nat && (n <=? 90)%nat then ascii_of_nat (n + 32) else c.

Fixpoint toLowerCase (s : string) : string :=
  match s with
  | EmptyString => EmptyString
  | String c r => String (lower_ascii c) (toLowerCase r)
  end.

End Js.
Import Js.

(** ** String-keyed tables that keep insertion order

    Used for attributes, inline style, object properties and the
    [Map<string, IDisposable>] of [activate]: [set] on a key that is there
    replaces the value in place, on a new key it appends. *)

Module Table.

Definition t (V : Type) := list (string * V).

Fixpoint get {V} (k : string) (m : t V) : option V :=
  match m with
  | [] => None
  | (k', v) :: r => if String.eqb k' k then Some v else get k r
  end.

Fixpoint set {V} (k : string) (v : V) (m : t V) : t V :=
  match m with
  | [] => [(k, v)]
  | (k', v') :: r =>
      if String.eqb k' k then (k, v) :: r else (k', v') :: set k v r
  end.

Definition values {V} (m : t V) : list V := map snd m.

End Table.

(** ** State and exceptions *)

Inductive Result (S A : Type) :=
| Ok (a : A) (s : S)
| Throw (e : Exn) (s : S).
Arguments Ok {S A} a s.
Arguments Throw {S A} e s.

Definition M (S A : Type) := S -> Result S A.

Definition ret {S A} (a : A) : M S A := fun s => Ok a s.

Definition bind {S A B} (m : M S A) (k : A -> M S B) : M S B :=
  fun s => match m s with
           | Ok a s' => k a s'
           | Throw e s' => Throw e s'
           end.

Definition throw {S A} (e : Exn) : M S A := fun s => Throw e s.

Declare Scope js_scope.
Delimit Scope js_scope with js.
Notation "x <- m ;; k" := (bind m (fun x => k))
  (at level 100, m at next level, right associativity) : js_scope.
Notation "m ;; k" := (bind m (fun _ => k))
  (at level 100, right associativity) : js_scope.
Open Scope js_scope.

(** [for (const x of xs) body(x)] *)
Fixpoint for_of {S A} (xs : list A) (body : A -> M S unit) : M S unit :=
  match xs with
  | [] => ret tt
  | x :: r => body x ;; for_of r body
  end.

(** Run a computation on a component of a larger state. *)
Definition lift {S T A} (proj : T -> S) (inj : S -> T -> T) (m : M S A) : M T A :=
  fun t => match m (proj t) with
           | Ok a s => Ok a (inj s t)
           | Throw e s => Throw e (inj s t)
           end.

(** ** The document *)

Module Dom.

Abbreviation nid := nat.

Inductive NodeType :=
| ElementNode (tagName : string)
| ForeignElement (tagName : string)
| TextNode (data : string)
| DocumentNode
| AnsiOutput (text : string)
| TruncatedOutput (outputs : list string) (linesLimit : Z).

Record Node := mkNode {
  nodeType : NodeType;
  attributes : Table.t string;
  classList : list string;
  style : Table.t string;
  props : Table.t Val;
  parentNode : option nid;
  childNodes : list nid
}.

Abbreviation t := (list Node).

Definition fresh (ty : NodeType) : Node := mkNode ty [] [] [] [] None [].

Definition is_element (n : Node) : bool :=
  match nodeType n with
  | ElementNode _ | ForeignElement _ | AnsiOutput _ | TruncatedOutput _ _ => true
  | TextNode _ | DocumentNode => false
  end.

(** Whether an element is in the HTML namespace.  [ForeignElement] is
    an element of another namespace, as [svg] and what is inside it. *)
Definition html_namespace (n : Node) : bool :=
  match nodeType n with
  | ForeignElement _ => false
  | _ => true
  end.

(** The name under which [getAttribute] and [setAttribute] look: in an
    HTML document they lower-case it for elements of the HTML namespace
    and take it as it is for the others. *)
Definition qualified (n : Node) (name : string) : string :=
  if html_namespace n then toLowerCase name else name.

Definition is_parent (n : Node) : bool :=
  match nodeType n with
  | TextNode _ => false
  | _ => true
  end.

(** The match of [getElementsByTagName]: the lower-cased name against
    elements of the HTML namespace, the name as given against the others. *)
Definition has_tag (tag : string) (n : Node) : bool :=
  match nodeType n with
  | ElementNode t => String.eqb t (toLowerCase tag)
  | ForeignElement t => String.eqb t tag
  | _ => false
  end.

Definition with_attributes (a : Table.t string) (n : Node) : Node :=
  mkNode (nodeType n) a (classList n) (style n) (props n) (parentNode n) (childNodes n).
Definition with_classList (c : list string) (n : Node) : Node :=
  mkNode (nodeType n) (attributes n) c (style n) (props n) (parentNode n) (childNodes n).
Definition with_style (s : Table.t string) (n : Node) : Node :=
  mkNode (nodeType n) (attributes n) (classList n) s (props n) (parentNode n) (childNodes n).
Definition with_props (p : Table.t Val) (n : Node) : Node :=
  mkNode (nodeType n) (attributes n) (classList n) (style n) p (parentNode n) (childNodes n).
Definition with_parentNode (p : option nid) (n : Node) : Node :=
  mkNode (nodeType n) (attributes n) (classList n) (style n) (props n) p (childNodes n).
Definition with_childNodes (c : list nid) (n : Node) : Node :=
  mkNode (nodeType n) (attributes n) (classList n) (style n) (props n) (parentNode n) c.

(** *** Reads *)

Definition parentElement_of (d : t) (n : nid) : option nid :=
  match d !! n with
  | Some x =>
      match parentNode x with
      | Some p =>
          match d !! p with
          | Some px => if is_element px then Some p else None
          | None => None
          end
      | None => None
      end
  | None => None
  end.

Fixpoint before (x : nid) (last : option nid) (l : list nid) : option nid :=
  match l with
  | [] => None
  | a :: r => if Nat.eqb a x then last else before x (Some a) r
  end.

Definition previousSibling_of (d : t) (n : nid) : option nid :=
  match d !! n with
  | Some x =>
      match parentNode x with
      | Some p =>
          match d !! p with
          | Some px => before n None (childNodes px)
          | None => None
          end
      | None => None
      end
  | None => None
  end.

Definition firstChild_of (d : t) (n : nid) : option nid :=
  match d !! n with
  | Some x => head (childNodes x)
  | None => None
  end.

(** Descendants in tree order.  The fuel bounds the depth; a tree of
    [length d] nodes is no deeper than that. *)
Fixpoint descendants (fuel : nat) (d : t) (n : nid) : list nid :=
  match fuel with
  | O => []
  | S f =>
      match d !! n with
      | Some x => flat_map (fun c => c :: descendants f d c) (childNodes x)
      | None => []
      end
  end.

Definition tagged (d : t) (tag : string) (i : nid) : bool :=
  match d !! i with
  | Some x => has_tag tag x
  | None => false
  end.

Definition getElementsByTagName_of (d : t) (n : nid) (tag : string) : list nid :=
  List.filter (tagged d tag) (descendants (length d) d n).

(** *** Operations *)

Definition node_at (n : nid) : M t Node :=
  fun d => match d !! n with
           | Some x => Ok x d
           | None => Throw (TypeError "not a node") d
           end.

Definition update (n : nid) (f : Node -> Node) : M t unit :=
  x <- node_at n ;;
  fun d => Ok tt (<[n := f x]> d).

Definition element_at (n : nid) : M t Node :=
  x <- node_at n ;;
  if is_element x then ret x else throw (TypeError "not an element").

Definition createNode (ty : NodeType) : M t nid :=
  fun d => Ok (length d) (d ++ [fresh ty]).

Definition createElement (tag : string) : M t nid :=
  createNode (ElementNode tag).

Definition parentElement (n : nid) : M t (option nid) :=
  fun d => Ok (parentElement_of d n) d.

Definition previousSibling (n : nid) : M t (option nid) :=
  fun d => Ok (previousSibling_of d n) d.

Definition firstChild (n : nid) : M t (option nid) :=
  fun d => Ok (firstChild_of d n) d.

Definition get_parentNode (n : nid) : M t (option nid) :=
  x <- node_at n ;; ret (parentNode x).

Definition getElementsByTagName (n : nid) (tag : string) : M t (list nid) :=
  fun d => Ok (getElementsByTagName_of d n tag) d.

Definition getAttribute (n : nid) (name : string) : M t (option string) :=
  x <- element_at n ;;
  ret (Table.get (qualified x name) (attributes x)).

Definition setAttribute (n : nid) (name value : string) : M t unit :=
  x <- element_at n ;;
  update n (with_attributes (Table.set (qualified x name) value (attributes x))).

Definition add_class (c : string) (l : list string) : list string :=
  if existsb (String.eqb c) l then l else l ++ [c].

Definition classList_add (n : nid) (c : string) : M t unit :=
  x <- element_at n ;;
  update n (with_classList (add_class c (classList x))).

Definition style_set (n : nid) (property value : string) : M t unit :=
  x <- element_at n ;;
  update n (with_style (Table.set property value (style x))).

(** [node[key]]: [undefined] when the object has no such property. *)
Definition get_prop (n : nid) (key : string) : M t Val :=
  x <- node_at n ;;
  ret (match Table.get key (props x) with Some v => v | None => VUndefined end).

Definition set_prop (n : nid) (key : string) (v : Val) : M t unit :=
  x <- node_at n ;;
  update n (with_props (Table.set key v (props x))).

Definition without (c : nid) (l : list nid) : list nid :=
  List.filter (fun i => negb (Nat.eqb i c)) l.

Definition detach (child : nid) : M t unit :=
  c <- node_at child ;;
  match parentNode c with
  | Some old =>
      o <- node_at old ;;
      update old (with_childNodes (without child (childNodes o))) ;;
      update child (with_parentNode None)
  | None => ret tt
  end.

Definition appendChild (parent child : nid) : M t nid :=
  p <- node_at parent ;;
  if is_parent p then
    detach child ;;
    p' <- node_at parent ;;
    update parent (with_childNodes (childNodes p' ++ [child])) ;;
    update child (with_parentNode (Some parent)) ;;
    ret child
  else throw HierarchyRequestError.

Definition removeChild (parent child : nid) : M t nid :=
  c <- node_at child ;;
  match parentNode c with
  | Some p =>
      if Nat.eqb p parent then detach child ;; ret child
      else throw NotFoundError
  | None => throw NotFoundError
  end.

End Dom.

(** ** Markup handed to [innerHTML]

    The fragment parser belongs to the browser; what it returns is a
    forest of nodes with their attributes and properties, which
    [set_innerHTML] puts under the element in place of its children. *)

Module Markup.
Import Dom.

#[warnings="-register-all"]
Inductive HtmlTree :=
| HNode (ty : NodeType) (attrs : Table.t string) (ps : Table.t Val)
        (children : list HtmlTree).

Definition set_children (n : nid) (ids : list nid) (d : Dom.t) : Dom.t :=
  match d !! n with
  | Some x => <[n := with_childNodes ids x]> d
  | None => d
  end.

Fixpoint insertTree (parent : nid) (tr : HtmlTree) (d : Dom.t) : nid * Dom.t :=
  match tr with
  | HNode ty attrs ps children =>
      let me := length d in
      let d1 := d ++ [mkNode ty attrs [] [] ps (Some parent) []] in
      let '(ids, d2) :=
        (fix insertAll (cs : list HtmlTree) (d : Dom.t) : list nid * Dom.t :=
           match cs with
           | [] => ([], d)
           | c :: r =>
               let '(i, d') := insertTree me c d in
               let '(js, d'') := insertAll r d' in
               (i :: js, d'')
           end) children d1 in
      (me, set_children me ids d2)
  end.

Fixpoint insertForest (parent : nid) (cs : list HtmlTree) (d : Dom.t)
  : list nid * Dom.t :=
  match cs with
  | [] => ([], d)
  | c :: r =>
      let '(i, d') := insertTree parent c d in
      let '(js, d'') := insertForest parent r d' in
      (i :: js, d'')
  end.

Definition set_innerHTML (n : nid) (forest : list HtmlTree) : M Dom.t unit :=
  x <- element_at n ;;
  for_of (childNodes x) detach ;;
  fun d =>
    let '(ids, d') := insertForest n forest d in
    Ok tt (set_children n ids d').

End Markup.

(** ** What the host hands in and keeps *)

Module OutputItem.
Record t := mk {
  id : string;
  mime : string;
  data : list Byte.byte;
  text : string
}.
End OutputItem.

Record Blob := mkBlob {
  blobParts : list (list Byte.byte);
  blobType : string
}.

Definition printable (c : ascii) : bool :=
  let n := nat_of_ascii c in (32 <=? n)%nat && (n <=? 126)%nat.

Fixpoint all_printable (s : string) : bool :=
  match s with
  | EmptyString => true
  | String c r => printable c && all_printable r
  end.

(** [new Blob(parts, { type })] *)
Definition new_Blob (parts : list (list Byte.byte)) (type : string) : Blob :=
  mkBlob parts (if all_printable type then toLowerCase type else "").

(** [interface IDisposable { dispose(): void }].  The one closure the
    source builds, in [renderImage], captures the object URL [src]. *)
Inductive IDisposable :=
| RevokeOnDispose (src : ObjectURL).

(** [type ErrorLike = Partial<Error>] *)
Record ErrorLike := mkErrorLike {
  name : option string;
  message : option string;
  stack : option string
}.

(** The value that [renderError] binds to [headerMessage]:
    [err.name && err.message ? `${err.name}: ${err.message}`
                             : err.name || err.message]. *)
Definition headerMessage_of (err : ErrorLike) : option string :=
  if present (name err) && present (message err)
  then Some (default "" (name err) +:+ ": " +:+ default "" (message err))
  else if present (name err) then name err else message err.

(** What [<ErrorLike>JSON.parse(text)] does: it throws, or yields [null]
    (reading a field of which throws), or yields a value whose [name],
    [message] and [stack] are read.  Values that carry none of the three
    (numbers, strings, arrays, [{}]) are the empty record; the fields hold
    strings, as [ErrorLike] types them. *)
Inductive Parsed :=
| ParseThrows (e : Exn)
| ParsedNull
| ParsedRecord (err : ErrorLike).

Record World := mkWorld {
  document : Dom.t;
  objectURLs : list Blob;
  revoked : list ObjectURL;
  console : list Exn;
  isTrusted : bool;
  disposables : Table.t IDisposable
}.

Definition with_document (d : Dom.t) (w : World) : World :=
  mkWorld d (objectURLs w) (revoked w) (console w) (isTrusted w) (disposables w).
Definition with_objectURLs (u : list Blob) (w : World) : World :=
  mkWorld (document w) u (revoked w) (console w) (isTrusted w) (disposables w).
Definition with_revoked (r : list ObjectURL) (w : World) : World :=
  mkWorld (document w) (objectURLs w) r (console w) (isTrusted w) (disposables w).
Definition with_console (c : list Exn) (w : World) : World :=
  mkWorld (document w) (objectURLs w) (revoked w) c (isTrusted w) (disposables w).
Definition with_isTrusted (b : bool) (w : World) : World :=
  mkWorld (document w) (objectURLs w) (revoked w) (console w) b (disposables w).
Definition with_disposables (m : Table.t IDisposable) (w : World) : World :=
  mkWorld (document w) (objectURLs w) (revoked w) (console w) (isTrusted w) m.

(** Document operations inside the world. *)
Definition dom {A} (m : M Dom.t A) : M World A := lift document with_document m.

Definition createObjectURL (b : Blob) : M World ObjectURL :=
  fun w => Ok (length (objectURLs w)) (with_objectURLs (objectURLs w ++ [b]) w).

Definition revokeObjectURL (u : ObjectURL) : M World unit :=
  fun w => Ok tt (with_revoked (revoked w ++ [u]) w).

Definition console_log (e : Exn) : M World unit :=
  fun w => Ok tt (with_console (console w ++ [e]) w).

(** [ctx.workspace.isTrusted] *)
Definition workspace_isTrusted : M World bool :=
  fun w => Ok (isTrusted w) w.

Definition dispose (d : IDisposable) : M World unit :=
  match d with
  | RevokeOnDispose src => revokeObjectURL src
  end.

Definition disposables_set (k : string) (d : IDisposable) : M World unit :=
  fun w => Ok tt (with_disposables (Table.set k d (disposables w)) w).

Definition disposables_get (k : string) : M World (option IDisposable) :=
  fun w => Ok (Table.get k (disposables w)) w.

Definition disposables_values : M World (list IDisposable) :=
  fun w => Ok (Table.values (disposables w)) w.

(** ** The two collaborators that live in other files *)

Module Collaborators.
Import Dom.

(** Modelled from the spec: [handleANSIOutput] of [./ansi] is not part of
    the sources at hand.  It is a pure function from text to a renderable
    fragment that never throws; the fragment is kept as one node that
    records the text it was built from. *)
Definition handleANSIOutput (text : string) : M Dom.t nid :=
  createNode (AnsiOutput text).

(** Modelled from the spec: [truncatedArrayOfString] of [./textHelper] is
    not part of the sources at hand.  It appends a possibly elided
    rendering of the lines into the target; the rendering is kept as one
    node that records the lines and the cap. *)
Definition truncatedArrayOfString (outputs : list string) (linesLimit : Z)
    (container : nid) : M Dom.t unit :=
  r <- createNode (TruncatedOutput outputs linesLimit) ;;
  appendChild container r ;;
  ret tt.

End Collaborators.

(** ** The renderers *)

Section Renderers.
Import Dom Markup Collaborators.

(** Whether the host has [window.trustedTypes]. *)
Variable trustedTypes : bool.
(** The fragment parser behind [innerHTML]. *)
Variable parseFragment : string -> list HtmlTree.
(** [JSON.parse] followed by the cast to [ErrorLike]. *)
Variable JSON_parse : string -> Parsed.
(** What the browser does to the document when the script node it is
    given has just been inserted: it runs the script, if it is one to
    run, and the script may do to the document what it likes.  An error
    inside the script is reported to the window, not thrown to the code
    that inserted the node.  Of the world only the document is followed
    here: the registry is local to [activate] and out of a script's
    reach, and the store of object URLs, the log of releases and the
    console record what the renderers themselves do. *)
Variable runScript : nid -> Dom.t -> Dom.t.

Record TrustedTypePolicy := mkPolicy {
  createHTML : string -> string;
  createScript : string -> string
}.

Definition ttPolicy : option TrustedTypePolicy :=
  if trustedTypes
  then Some (mkPolicy (fun value => value) (fun value => value))
  else None.

Definition renderImage (outputInfo : OutputItem.t) (element : nid)
  : M World IDisposable :=
  let blob := new_Blob [OutputItem.data outputInfo] (OutputItem.mime outputInfo) in
  src <- createObjectURL blob ;;
  let disposable := RevokeOnDispose src in
  image <- dom (createElement "img") ;;
  dom (set_prop image "src" (VObjectURL src)) ;;
  display <- dom (createElement "div") ;;
  dom (classList_add display "display") ;;
  dom (appendChild display image) ;;
  dom (appendChild element display) ;;
  ret disposable.

Definition preservedScriptAttributes : list string :=
  ["type"; "src"; "nonce"; "noModule"; "async"].

(** [container.appendChild(scriptTag)] with what it sets off. *)
Definition appendScript (container scriptTag : nid) : M Dom.t nid :=
  appended <- appendChild container scriptTag ;;
  (fun d => Ok tt (runScript scriptTag d)) ;;
  ret appended.

Definition domEval (container : nid) : M Dom.t unit :=
  arr <- getElementsByTagName container "script" ;;
  for_of arr (fun node =>
    scriptTag <- createElement "script" ;;
    innerText <- get_prop node "innerText" ;;
    let trustedScript :=
      match ttPolicy with
      | Some policy => VStr (createScript policy (toString innerText))
      | None => innerText
      end in
    set_prop scriptTag "text" (VStr (toString trustedScript)) ;;
    for_of preservedScriptAttributes (fun key =>
      own <- get_prop node key ;;
      val <- (if truthy own then ret own
              else x <- node_at node ;;
                   if is_element x
                   then a <- getAttribute node key ;; ret (of_option a)
                   else ret VUndefined) ;;
      if truthy val then setAttribute scriptTag key (toString val)
      else ret tt) ;;
    appended <- appendScript container scriptTag ;;
    parent <- get_parentNode appended ;;
    match parent with
    | Some parent => removeChild parent scriptTag ;; ret tt
    | None => throw (TypeError "parentNode is null")
    end).

Definition renderHTML (outputInfo : OutputItem.t) (container : nid)
  : M Dom.t unit :=
  let htmlContent := OutputItem.text outputInfo in
  element <- createElement "div" ;;
  let trustedHtml :=
    match ttPolicy with
    | Some policy => createHTML policy htmlContent
    | None => htmlContent
    end in
  set_innerHTML element (parseFragment trustedHtml) ;;
  appendChild container element ;;
  domEval element.

Definition renderJavascript (outputInfo : OutputItem.t) (container : nid)
  : M Dom.t unit :=
  let str := OutputItem.text outputInfo in
  let scriptVal :=
    "<script type=" +:+ String "034" "application/javascript"
      +:+ String "034" ">" +:+ str +:+ "</script>" in
  element <- createElement "div" ;;
  let trustedHtml :=
    match ttPolicy with
    | Some policy => createHTML policy scriptVal
    | None => scriptVal
    end in
  set_innerHTML element (parseFragment trustedHtml) ;;
  appendChild container element ;;
  domEval element.

Definition renderError (outputInfo : OutputItem.t) (container : nid)
  : M World unit :=
  element <- dom (createElement "div") ;;
  dom (appendChild container element) ;;
  match JSON_parse (OutputItem.text outputInfo) with
  | ParseThrows e =>
      console_log e ;;
      ret tt
  | ParsedNull => throw (TypeError "Cannot read properties of null")
  | ParsedRecord err =>
      (if present (stack err) then
         stack_el <- dom (createElement "pre") ;;
         dom (classList_add stack_el "traceback") ;;
         dom (style_set stack_el "margin" "8px 0") ;;
         fragment <- dom (handleANSIOutput (default "" (stack err))) ;;
         dom (appendChild stack_el fragment) ;;
         dom (appendChild container stack_el) ;;
         ret tt
       else
         header <- dom (createElement "div") ;;
         let headerMessage := headerMessage_of err in
         if present headerMessage then
           dom (set_prop header "innerText" (VStr (default "" headerMessage))) ;;
           dom (appendChild container header) ;;
           ret tt
         else ret tt) ;;
      dom (classList_add container "error")
  end.

Definition renderStream (outputInfo : OutputItem.t) (container : nid)
    (error : bool) : M Dom.t unit :=
  let new_block : M Dom.t unit :=
    element <- createElement "span" ;;
    classList_add element "output-stream" ;;
    let text := OutputItem.text outputInfo in
    truncatedArrayOfString [text] 30 element ;;
    appendChild container element ;;
    setAttribute container "output-mime-type" (OutputItem.mime outputInfo) ;;
    if error then classList_add container "error" else ret tt in
  outputContainer <- parentElement container ;;
  match outputContainer with
  | None => ret tt
  | Some outputContainer =>
      prev <- previousSibling outputContainer ;;
      match prev with
      | Some prev =>
          outputElement <- firstChild prev ;;
          match outputElement with
          | Some outputElement =>
              marker <- getAttribute outputElement "output-mime-type" ;;
              if bool_decide (marker = Some (OutputItem.mime outputInfo)) then
                let text := OutputItem.text outputInfo in
                element <- createElement "span" ;;
                truncatedArrayOfString [text] 30 element ;;
                appendChild outputElement element ;;
                ret tt
              else new_block
          | None => new_block
          end
      | None => new_block
      end
  end.

Definition renderText (outputInfo : OutputItem.t) (container : nid)
  : M Dom.t unit :=
  contentNode <- createElement "div" ;;
  classList_add contentNode ".output-plaintext" ;;
  let text := OutputItem.text outputInfo in
  truncatedArrayOfString [text] 30 contentNode ;;
  appendChild container contentNode ;;
  ret tt.

(** [activate] makes the registry; the two entry points close over it. *)
Definition activate : M World unit :=
  fun w => Ok tt (with_disposables [] w).

Definition is_one_of (s : string) (cases : list string) : bool :=
  existsb (String.eqb s) cases.

Definition renderOutputItem (outputInfo : OutputItem.t) (element : nid)
  : M World unit :=
  let mime := OutputItem.mime outputInfo in
  if is_one_of mime ["text/html"; "image/svg+xml"] then
    trusted <- workspace_isTrusted ;;
    if negb trusted then ret tt
    else dom (renderHTML outputInfo element)
  else if is_one_of mime ["application/javascript"] then
    trusted <- workspace_isTrusted ;;
    if negb trusted then ret tt
    else dom (renderJavascript outputInfo element)
  else if is_one_of mime ["image/gif"; "image/png"; "image/jpeg"; "image/git"] then
    disposable <- renderImage outputInfo element ;;
    disposables_set (OutputItem.id outputInfo) disposable
  else if is_one_of mime ["application/vnd.code.notebook.error"] then
    renderError outputInfo element
  else if is_one_of mime ["application/vnd.code.notebook.stdout";
                          "application/x.notebook.stdout";
                          "application/x.notebook.stream"] then
    dom (renderStream outputInfo element false)
  else if is_one_of mime ["application/vnd.code.notebook.stderr";
                          "application/x.notebook.stderr"] then
    dom (renderStream outputInfo element true)
  else if is_one_of mime ["text/plain"] then
    dom (renderText outputInfo element)
  else ret tt.

Definition disposeOutputItem (id : option string) : M World unit :=
  if present id then
    d <- disposables_get (default "" id) ;;
    match d with
    | Some d => dispose d
    | None => ret tt
    end
  else
    ds <- disposables_values ;;
    for_of ds dispose.

End Renderers.

(** * Notions the statements speak of *)

Section Notions.
Import Dom Markup.

Variable trustedTypes : bool.
Variable parseFragment : string -> list HtmlTree.
Variable JSON_parse : string -> Parsed.
Variable runScript : nid -> Dom.t -> Dom.t.

(** ** The dispatch table of the specification, one row per mime string *)

Inductive Strategy :=
| Markup
| Script
| Image
| StructuredError
| Stream (isError : bool)
| PlainText.

Definition dispatch_table : Table.t Strategy :=
  [ ("text/html", Markup);
    ("image/svg+xml", Markup);
    ("application/javascript", Script);
    ("image/gif", Image);
    ("image/png", Image);
    ("image/jpeg", Image);
    ("image/git", Image);
    ("application/vnd.code.notebook.error", StructuredError);
    ("application/vnd.code.notebook.stdout", Stream false);
    ("application/x.notebook.stdout", Stream false);
    ("application/x.notebook.stream", Stream false);
    ("application/vnd.code.notebook.stderr", Stream true);
    ("application/x.notebook.stderr", Stream true);
    ("text/plain", PlainText) ].

(** What each row stands for: the strategy of the source, behind the
    trust gate for markup and script, and with the registration of the
    disposer for images. *)
Definition run_strategy (s : Strategy) (outputInfo : OutputItem.t) (element : nid)
  : M World unit :=
  match s with
  | Markup =>
      fun w => if isTrusted w
               then dom (renderHTML trustedTypes parseFragment runScript outputInfo element) w
               else Ok tt w
  | Script =>
      fun w => if isTrusted w
               then dom (renderJavascript trustedTypes parseFragment runScript outputInfo element) w
               else Ok tt w
  | Image =>
      disposable <- renderImage outputInfo element ;;
      disposables_set (OutputItem.id outputInfo) disposable
  | StructuredError => renderError JSON_parse outputInfo element
  | Stream isError => dom (renderStream outputInfo element isError)
  | PlainText => dom (renderText outputInfo element)
  end.

(** ** What the host may do, call after call *)

Inductive HostCall :=
| Render (outputInfo : OutputItem.t) (element : nid)
| Dispose (id : option string).

Definition world_of {A} (r : Result World A) : World :=
  match r with
  | Ok _ w => w
  | Throw _ w => w
  end.

(** The world a call leaves behind, whether it returned or threw. *)
Definition host_call (c : HostCall) (w : World) : World :=
  match c with
  | Render outputInfo element =>
      world_of (renderOutputItem trustedTypes parseFragment JSON_parse runScript outputInfo element w)
  | Dispose id => world_of (disposeOutputItem id w)
  end.

Definition host_calls (cs : list HostCall) (w : World) : World :=
  fold_left (fun w c => host_call c w) cs w.

End Notions.

(** ** Script revival *)

(** [node[key]] *)
Definition prop_of (x : Dom.Node) (key : string) : Val :=
  match Table.get key (Dom.props x) with
  | Some v => v
  | None => VUndefined
  end.

(** [node[key] || node.getAttribute(key)] on an element: the attribute
    is looked up under the name that [getAttribute] takes for this
    element, lower-cased in the HTML namespace and as it is outside. *)
Definition preserved_value (x : Dom.Node) (key : string) : Val :=
  or_else (prop_of x key)
          (of_option (Table.get (Dom.qualified x key) (Dom.attributes x))).

(** One round of the copy: the attribute is set when the value is
    truthy.  The node that receives it was made by [createElement], so
    [setAttribute] lower-cases the name. *)
Definition copy_attribute (x : Dom.Node) (attrs : Table.t string) (key : string)
  : Table.t string :=
  let val := preserved_value x key in
  if truthy val then Table.set (toLowerCase key) (toString val) attrs else attrs.

(** The script node built for the old script node [x]: its text is the
    old node's [innerText], its attributes are the allow-listed ones, and
    it hangs nowhere. *)
Definition revived (x : Dom.Node) : Dom.Node :=
  Dom.mkNode (Dom.ElementNode "script")
    (fold_left (copy_attribute x) preservedScriptAttributes [])
    [] [] [("text", VStr (toString (prop_of x "innerText")))] None [].

(** ** Stream blocks *)

(** The attribute that marks a surface as the block of a stream. *)
Definition marker : string := "output-mime-type".

(** The [span] a stream render builds, and the rendering that
    [truncatedArrayOfString] puts into it. *)
Definition stream_span (classes : list string) (parent child : Dom.nid) : Dom.Node :=
  Dom.mkNode (Dom.ElementNode "span") [] classes [] [] (Some parent) [child].

Definition truncated_text (text : string) (parent : Dom.nid) : Dom.Node :=
  Dom.mkNode (Dom.TruncatedOutput [text] 30) [] [] [] [] (Some parent) [].

(** The surface [x] as a new block: one more child, the marker, and the
    class "error" for an error stream. *)
Definition tagged_block (mime : string) (error : bool) (child : Dom.nid)
    (x : Dom.Node) : Dom.Node :=
  Dom.with_classList
    (if error then Dom.add_class "error" (Dom.classList x) else Dom.classList x)
    (Dom.with_attributes (Table.set marker mime (Dom.attributes x))
       (Dom.with_childNodes (Dom.childNodes x ++ [child]) x)).

(** The document once the chunk has gone into the existing block [c]. *)
Definition stream_appended (outputInfo : OutputItem.t) (c : Dom.nid)
    (cx : Dom.Node) (d : Dom.t) : Dom.t :=
  let n := length d in
  (<[c := Dom.with_childNodes (Dom.childNodes cx ++ [n]) cx]> d
   ++ [stream_span [] c (S n)])
   ++ [truncated_text (OutputItem.text outputInfo) n].

(** The document once the chunk has become a new block on [element]. *)
Definition stream_block (outputInfo : OutputItem.t) (error : bool)
    (element : Dom.nid) (x : Dom.Node) (d : Dom.t) : Dom.t :=
  let n := length d in
  (<[element := tagged_block (OutputItem.mime outputInfo) error n x]> d
   ++ [stream_span ["output-stream"] element (S n)])
   ++ [truncated_text (OutputItem.text outputInfo) n].

(** ** Structured errors *)

(** A field counts when it is there and is not the empty string. *)
Definition filled (field : option string) : option string :=
  match field with
  | Some "" => None
  | other => other
  end.

(** The header line: "name: message", else whichever of the two counts. *)
Definition header_of (err : ErrorLike) : option string :=
  match filled (name err), filled (message err) with
  | Some n, Some m => Some (n +:+ ": " +:+ m)
  | Some n, None => Some n
  | None, Some m => Some m
  | None, None => None
  end.

(** The [div] that [renderError] appends before it decodes anything. *)
Definition placeholder (container : Dom.nid) : Dom.Node :=
  Dom.mkNode (Dom.ElementNode "div") [] [] [] [] (Some container) [].

(** [<pre class="traceback" style="margin: 8px 0">] holding node [child]. *)
Definition traceback (container child : Dom.nid) : Dom.Node :=
  Dom.mkNode (Dom.ElementNode "pre") [] ["traceback"] [("margin", "8px 0")] []
    (Some container) [child].

(** The fragment [handleANSIOutput] built from the stack. *)
Definition ansi_fragment (text : string) (parent : Dom.nid) : Dom.Node :=
  Dom.mkNode (Dom.AnsiOutput text) [] [] [] [] (Some parent) [].

Definition header (container : Dom.nid) (line : string) : Dom.Node :=
  Dom.mkNode (Dom.ElementNode "div") [] [] [] [("innerText", VStr line)]
    (Some container) [].

(** The surface [x] with [children] appended. *)
Definition grown (children : list Dom.nid) (x : Dom.Node) : Dom.Node :=
  Dom.with_childNodes (Dom.childNodes x ++ children) x.

(** The surface [x] with [children] appended and the class "error". *)
Definition error_block (children : list Dom.nid) (x : Dom.Node) : Dom.Node :=
  Dom.with_classList (Dom.add_class "error" (Dom.classList x)) (grown children x).

(** The document after [renderError] has decoded [err]. *)
Definition error_shown (err : ErrorLike) (container : Dom.nid) (x : Dom.Node)
    (d : Dom.t) : Dom.t :=
  let n := length d in
  match filled (stack err) with
  | Some trace =>
      ((<[container := error_block [n; S n] x]> d
        ++ [placeholder container])
        ++ [traceback container (S (S n))])
        ++ [ansi_fragment trace (S n)]
  | None =>
      match header_of err with
      | Some line =>
          (<[container := error_block [n; S n] x]> d
           ++ [placeholder container])
           ++ [header container line]
      | None =>
          (<[container := error_block [n] x]> d
           ++ [placeholder container])
           ++ [Dom.fresh (Dom.ElementNode "div")]
      end
  end.

(** ** The registry and the calls of its disposers *)

Definition image_mimes : list string :=
  ["image/gif"; "image/png"; "image/jpeg"; "image/git"].

(** The world once [renderImage] has put the image of [outputInfo] on the
    surface [element], whose node was [x]: a new object URL for the bytes,
    an [img] that points at it, a [div.display] around the [img], and the
    [div] as last child of the surface. *)
Definition image_shown (outputInfo : OutputItem.t) (element : Dom.nid)
    (x : Dom.Node) (w : World) : World :=
  let n := length (document w) in
  let u := length (objectURLs w) in
  with_document
    ((<[element := Dom.with_childNodes (Dom.childNodes x ++ [S n]) x]> (document w)
      ++ [Dom.mkNode (Dom.ElementNode "img") [] [] [] [("src", VObjectURL u)]
            (Some (S n)) []])
      ++ [Dom.mkNode (Dom.ElementNode "div") [] ["display"] [] []
            (Some element) [n]])
    (with_objectURLs
       (objectURLs w ++
        [new_Blob [OutputItem.data outputInfo] (OutputItem.mime outputInfo)])
       w).

Definition src_of (d : IDisposable) : ObjectURL :=
  match d with RevokeOnDispose src => src end.

(** The disposers one call of [disposeOutputItem] reaches, in the order
    in which it calls them. *)
Definition reached (id : option string) (registry : Table.t IDisposable)
  : list IDisposable :=
  if present id then
    match Table.get (default "" id) registry with
    | Some d => [d]
    | None => []
    end
  else Table.values registry.

(** How often the disposer of object URL [u] has been called so far. *)
Definition calls_of (u : ObjectURL) (w : World) : nat :=
  count_occ Nat.eq_dec (revoked w) u.

(** Every disposer in the registry releases an object URL that has been
    handed out. *)
Definition registry_issued (w : World) : Prop :=
  Forall (fun d => src_of d < length (objectURLs w)) (Table.values (disposables w)).


(** The parts of the world that only images and disposal touch. *)
Definition same_resources (w w' : World) : Prop :=
  objectURLs w' = objectURLs w /\ revoked w' = revoked w /\
  disposables w' = disposables w.

(** [m] leaves those parts alone and, where it returns, returns a value
    in [Q]. *)
Definition keeps {A} (Q : A -> Prop) (m : M World A) : Prop :=
  forall w, same_resources w (world_of (m w)) /\
            (forall a w', m w = Ok a w' -> Q a).

(** ** Script revival, step by step *)

(** The document at the moment the browser runs the new script: the
    node built for [old] has the next free place and hangs under the
    container, whose node was [x], as its last child. *)
Definition script_inserted (container : Dom.nid) (x old : Dom.Node) (d : Dom.t)
  : Dom.t :=
  <[container := grown [length d] x]> d
  ++ [Dom.with_parentNode (Some container) (revived old)].

(** The document [d] once node [n], which was [y] and hung under [p],
    whose node was [px], has been removed from its parent. *)
Definition taken_out (n p : Dom.nid) (y px : Dom.Node) (d : Dom.t) : Dom.t :=
  <[n := Dom.with_parentNode None y]>
    (<[p := Dom.with_childNodes (Dom.without n (Dom.childNodes px)) px]> d).

(** Scripts that leave the document as it is. *)
Definition inert (runScript : Dom.nid -> Dom.t -> Dom.t) : Prop :=
  forall n d, runScript n d = d.

(** ** Calls that leave the disposer of an id alone *)



(** ** Sample inputs *)

Module Sample.
Import Dom Markup.

Definition div : Node := fresh (ElementNode "div").

(** A surface on its own: no slot around it. *)
Definition lone : Dom.t := [div].

Definition world_of_document (d : Dom.t) : World := mkWorld d [] [] [] false [].

Definition lone_world : World := world_of_document lone.
Definition trusted_world : World := with_isTrusted true lone_world.

(** A registry that holds one disposer. *)
Definition one_image : World :=
  mkWorld lone [new_Blob [[]] "image/png"] [] [] false [("out-1", RevokeOnDispose 0)].

Definition png : OutputItem.t := OutputItem.mk "out-1" "image/png" [] "".
Definition html : OutputItem.t := OutputItem.mk "out-2" "text/html" [] "<b>hi</b>".
Definition stdout : OutputItem.t :=
  OutputItem.mk "out-3" "application/vnd.code.notebook.stdout" [] "world".
Definition stderr : OutputItem.t :=
  OutputItem.mk "out-4" "application/vnd.code.notebook.stderr" [] "oops".

(** A cell with two output slots.  The first slot's surface (node 2) is the
    block of a stdout stream; the second slot's surface is node 4. *)
Definition stdout_block : Node :=
  mkNode (ElementNode "div")
    [("output-mime-type", "application/vnd.code.notebook.stdout")] [] [] []
    (Some 1) [5].

Definition two_slots : Dom.t :=
  [ mkNode (ElementNode "div") [] [] [] [] None [1; 3];
    mkNode (ElementNode "div") [] [] [] [] (Some 0) [2];
    stdout_block;
    mkNode (ElementNode "div") [] [] [] [] (Some 0) [4];
    mkNode (ElementNode "div") [] [] [] [] (Some 3) [];
    mkNode (ElementNode "span") [] ["output-stream"] [] [] (Some 2) [6];
    mkNode (TruncatedOutput ["hello "] 30) [] [] [] [] (Some 5) [] ].

(** The same cell before anything is rendered. *)
Definition two_empty_slots : Dom.t :=
  [ mkNode (ElementNode "div") [] [] [] [] None [1; 3];
    mkNode (ElementNode "div") [] [] [] [] (Some 0) [2];
    mkNode (ElementNode "div") [] [] [] [] (Some 1) [];
    mkNode (ElementNode "div") [] [] [] [] (Some 0) [4];
    mkNode (ElementNode "div") [] [] [] [] (Some 3) [] ].

(** A [div] that holds one script, as the parser leaves it. *)
Definition inert_script : Node :=
  mkNode (ElementNode "script") [("type", "module")] [] []
    [("innerText", VStr "x = 1"); ("type", VStr "module"); ("async", VBool false)]
    (Some 0) [2].

Definition with_script : Dom.t :=
  [ mkNode (ElementNode "div") [] [] [] [] None [1];
    inert_script;
    mkNode (TextNode "x = 1") [] [] [] [] (Some 1) [] ].

Definition no_markup (s : string) : list HtmlTree := [].

(** Scripts, by what running them does to the document: nothing; the
    script takes its own node out of the document; the script moves its
    own node under node 1. *)
Definition quiet (n : nid) (d : Dom.t) : Dom.t := d.




(** Texts of structured-error payloads and what [JSON.parse] makes of
    them. *)
Definition quote : string := String "034" EmptyString.

Definition quoted (s : string) : string := quote +:+ s +:+ quote.

Definition type_error_text : string :=
  "{" +:+ quoted "name" +:+ ":" +:+ quoted "TypeError" +:+ ","
      +:+ quoted "message" +:+ ":" +:+ quoted "x is undefined" +:+ "}".

Definition trace_text : string :=
  "{" +:+ quoted "stack" +:+ ":" +:+ quoted "at f (a.js:1)" +:+ ","
      +:+ quoted "name" +:+ ":" +:+ quoted "E" +:+ "}".

Definition empty_stack_text : string :=
  "{" +:+ quoted "stack" +:+ ":" +:+ quoted "" +:+ ","
      +:+ quoted "name" +:+ ":" +:+ quoted "E" +:+ "}".

Definition type_error : ErrorLike :=
  mkErrorLike (Some "TypeError") (Some "x is undefined") None.
Definition with_trace : ErrorLike :=
  mkErrorLike (Some "E") None (Some "at f (a.js:1)").
Definition empty_stack : ErrorLike :=
  mkErrorLike (Some "E") None (Some "").

Definition JSON_parse (s : string) : Parsed :=
  if String.eqb s type_error_text then ParsedRecord type_error
  else if String.eqb s trace_text then ParsedRecord with_trace
  else if String.eqb s empty_stack_text then ParsedRecord empty_stack
  else if String.eqb s "{}" then ParsedRecord (mkErrorLike None None None)
  else if String.eqb s "null" then ParsedNull
  else ParseThrows (SyntaxError "Unexpected token").

Definition error_of (text : string) : OutputItem.t :=
  OutputItem.mk "out-5" "application/vnd.code.notebook.error" [] text.

End Sample.

(** * Further notions *)

(** The document once [renderText] has put the text on [container]. *)
Definition text_shown (outputInfo : OutputItem.t) (container : Dom.nid)
    (x : Dom.Node) (d : Dom.t) : Dom.t :=
  let n := length d in
  (<[container := grown [n] x]> d
   ++ [Dom.mkNode (Dom.ElementNode "div") [] [".output-plaintext"] [] []
         (Some container) [S n]])
   ++ [truncated_text (OutputItem.text outputInfo) n].

(** No two registry entries release the same object URL. *)
Definition registry_distinct (w : World) : Prop :=
  NoDup (map src_of (Table.values (disposables w))).

Definition is_render (c : HostCall) : bool :=
  match c with Render _ _ => true | Dispose _ => false end.

(** The body of the loop of [domEval], for one script node. *)
Definition revive (trustedTypes : bool) (runScript : Dom.nid -> Dom.t -> Dom.t)
    (container node : Dom.nid) : M Dom.t unit :=
  scriptTag <- Dom.createElement "script" ;;
  innerText <- Dom.get_prop node "innerText" ;;
  let trustedScript :=
    match ttPolicy trustedTypes with
    | Some policy => VStr (createScript policy (toString innerText))
    | None => innerText
    end in
  Dom.set_prop scriptTag "text" (VStr (toString trustedScript)) ;;
  for_of preservedScriptAttributes (fun key =>
    own <- Dom.get_prop node key ;;
    val <- (if truthy own then ret own
            else x <- Dom.node_at node ;;
                 if Dom.is_element x
                 then a <- Dom.getAttribute node key ;; ret (of_option a)
                 else ret VUndefined) ;;
    if truthy val then Dom.setAttribute scriptTag key (toString val)
    else ret tt) ;;
  appended <- appendScript runScript container scriptTag ;;
  parent <- Dom.get_parentNode appended ;;
  match parent with
  | Some parent => Dom.removeChild parent scriptTag ;; ret tt
  | None => throw (TypeError "parentNode is null")
  end.

(** The end of that body, from [.parentNode] on: what is left to do once
    the new script node [n] has been appended and has run. *)
Definition take_out (n : Dom.nid) : M Dom.t unit :=
  parent <- Dom.get_parentNode n ;;
  match parent with
  | Some parent => Dom.removeChild parent n ;; ret tt
  | None => throw (TypeError "parentNode is null")
  end.

(** The names under which [domEval] may set attributes. *)
Definition preserved_names : list string := map toLowerCase preservedScriptAttributes.

(** What [renderHTML] and [renderJavascript] do once the markup is
    parsed. *)
Definition inject (trustedTypes : bool) (runScript : Dom.nid -> Dom.t -> Dom.t)
    (forest : list Markup.HtmlTree) (container : Dom.nid) : M Dom.t unit :=
  element <- Dom.createElement "div" ;;
  Markup.set_innerHTML element forest ;;
  Dom.appendChild container element ;;
  domEval trustedTypes runScript element.

(** The text [renderJavascript] hands to the parser. *)
Definition script_markup (str : string) : string :=
  "<script type=" +:+ String "034" "application/javascript"
    +:+ String "034" ">" +:+ str +:+ "</script>".

(** [d'] has every node of [d] as it was, but for node [e]. *)
Definition agrees_off (e : Dom.nid) (d d' : Dom.t) : Prop :=
  forall i y, i <> e -> d !! i = Some y -> d' !! i = Some y.

(** ** Further sample inputs *)

Module MoreSamples.
Import Dom Markup.

(** A cell whose first slot holds text, not a surface. *)
Definition text_in_slot : Dom.t :=
  [ mkNode (ElementNode "div") [] [] [] [] None [1; 3];
    mkNode (ElementNode "div") [] [] [] [] (Some 0) [2];
    mkNode (TextNode "loading") [] [] [] [] (Some 1) [];
    mkNode (ElementNode "div") [] [] [] [] (Some 0) [4];
    mkNode (ElementNode "div") [] [] [] [] (Some 3) [] ].

(** A cell with three slots; the first holds a stdout block. *)
Definition three_slots : Dom.t :=
  [ mkNode (ElementNode "div") [] [] [] [] None [1; 3; 5];
    mkNode (ElementNode "div") [] [] [] [] (Some 0) [2];
    mkNode (ElementNode "div")
      [("output-mime-type", "application/vnd.code.notebook.stdout")] [] [] []
      (Some 1) [7];
    mkNode (ElementNode "div") [] [] [] [] (Some 0) [4];
    mkNode (ElementNode "div") [] [] [] [] (Some 3) [];
    mkNode (ElementNode "div") [] [] [] [] (Some 0) [6];
    mkNode (ElementNode "div") [] [] [] [] (Some 5) [];
    mkNode (ElementNode "span") [] ["output-stream"] [] [] (Some 2) [8];
    mkNode (TruncatedOutput ["one"] 30) [] [] [] [] (Some 7) [] ].

(** A parser that knows two texts: a paragraph with a script in it, and
    the script [go()] as [renderJavascript] wraps it. *)
Definition parse (s : string) : list HtmlTree :=
  if String.eqb s "<p>hi<script>go()</script></p>" then
    [ HNode (ElementNode "p") [] []
        [ HNode (TextNode "hi") [] [] [];
          HNode (ElementNode "script") [] [("innerText", VStr "go()")]
            [ HNode (TextNode "go()") [] [] [] ] ] ]
  else if String.eqb s (script_markup "go()") then
    [ HNode (ElementNode "script") [("type", "application/javascript")]
        [("innerText", VStr "go()"); ("type", VStr "application/javascript")]
        [ HNode (TextNode "go()") [] [] [] ] ]
  else [].

(** A [div] that holds an [svg] with a script in it.  The parser has
    lower-cased the attribute name; a script element of the SVG
    namespace has neither a [noModule] nor an [innerText] property. *)
Definition svg_script : Node :=
  mkNode (ForeignElement "script") [("nomodule", "nomodule"); ("type", "text/javascript")]
    [] [] [("type", VStr "text/javascript")]
    (Some 1) [3].

Definition with_svg_script : Dom.t :=
  [ mkNode (ElementNode "div") [] [] [] [] None [1];
    mkNode (ForeignElement "svg") [] [] [] [] (Some 0) [2];
    svg_script;
    mkNode (TextNode "y = 2") [] [] [] [] (Some 2) [] ].

Definition page : OutputItem.t :=
  OutputItem.mk "out-8" "text/html" [] "<p>hi<script>go()</script></p>".
Definition script : OutputItem.t :=
  OutputItem.mk "out-9" "application/javascript" [] "go()".
Definition plain : OutputItem.t := OutputItem.mk "out-10" "text/plain" [] "42".

End MoreSamples.

(** * Reasoning about the embedding *)

(** ** Running a sequence step by step *)

Section Steps.
Context {S A B : Type}.

Lemma bind_Ok (m : M S A) (k : A -> M S B) s a s' :
  m s = Ok a s' -> bind m k s = k a s'.
Proof. unfold bind. intros ->. reflexivity. Qed.

Lemma bind_bind {C} (m : M S A) (k : A -> M S B) (k' : B -> M S C) s :
  bind (bind m k) k' s = bind m (fun a => bind (k a) k') s.
Proof. unfold bind. now destruct (m s). Qed.

End Steps.

Lemma dom_Ok {A} (m : M Dom.t A) w a d' :
  m (document w) = Ok a d' -> dom m w = Ok a (with_document d' w).
Proof. unfold dom, lift. intros ->. reflexivity. Qed.

(** ** Lookups in a document that has grown or been updated *)

Section Heap.
Context {A : Type}.
Implicit Types (l : list A) (i j : nat).

Lemma lookup_snoc_at l x i : i = length l -> (l ++ [x]) !! i = Some x.
Proof. intros ->. rewrite lookup_app_r by lia. now rewrite Nat.sub_diag. Qed.

Lemma lookup_snoc_lt l x i : i < length l -> (l ++ [x]) !! i = l !! i.
Proof. intros. now apply lookup_app_l. Qed.

Lemma insert_snoc l x y : <[length l := y]> (l ++ [x]) = l ++ [y].
Proof.
  rewrite insert_app_r_alt by lia. now rewrite Nat.sub_diag.
Qed.

Lemma lookup_insert_at l i j x : i = j -> j < length l -> <[i:=x]> l !! j = Some x.
Proof. intros ->. apply list_lookup_insert_eq. Qed.

End Heap.

Lemma length_snoc {A} (l : list A) x : length (l ++ [x]) = S (length l).
Proof. rewrite length_app. simpl. lia. Qed.

Create Rewrite HintDb doc_len.
#[global] Hint Rewrite @length_insert @length_app : doc_len.
Create Rewrite HintDb doc_norm.
#[global] Hint Rewrite @length_insert @length_snoc : doc_norm.

Ltac len := autorewrite with doc_len in *; simpl in *; lia.

Ltac bounds :=
  repeat match goal with
  | H : ?d !! ?i = Some _ |- _ =>
      lazymatch goal with
      | _ : i < length d |- _ => fail
      | _ => pose proof (lookup_lt_Some _ _ _ H)
      end
  end.

Ltac look1 :=
  first
    [ rewrite list_lookup_insert_ne by len
    | rewrite lookup_insert_at by len
    | rewrite lookup_snoc_at by len
    | rewrite lookup_snoc_lt by len ].

Ltac look := repeat look1.

(** ** What each document operation does where it succeeds *)

Module DomFacts.
Import Dom.

Lemma node_at_Ok d n x : d !! n = Some x -> node_at n d = Ok x d.
Proof. unfold node_at. intros ->. reflexivity. Qed.

Lemma update_Ok d n f x :
  d !! n = Some x -> update n f d = Ok tt (<[n := f x]> d).
Proof. intros H. unfold update. rewrite (bind_Ok _ _ _ _ _ (node_at_Ok _ _ _ H)). reflexivity. Qed.

Lemma element_at_Ok d n x :
  d !! n = Some x -> is_element x = true -> element_at n d = Ok x d.
Proof.
  intros H E. unfold element_at.
  rewrite (bind_Ok _ _ _ _ _ (node_at_Ok _ _ _ H)), E. reflexivity.
Qed.

Lemma getAttribute_Ok d n name x :
  d !! n = Some x -> is_element x = true ->
  getAttribute n name d = Ok (Table.get (qualified x name) (attributes x)) d.
Proof.
  intros H E. unfold getAttribute.
  rewrite (bind_Ok _ _ _ _ _ (element_at_Ok _ _ _ H E)). reflexivity.
Qed.

Lemma setAttribute_Ok d n name value x :
  d !! n = Some x -> is_element x = true ->
  setAttribute n name value d =
  Ok tt (<[n := with_attributes (Table.set (qualified x name) value (attributes x)) x]> d).
Proof.
  intros H E. unfold setAttribute.
  rewrite (bind_Ok _ _ _ _ _ (element_at_Ok _ _ _ H E)).
  now apply update_Ok.
Qed.

Lemma classList_add_Ok d n c x :
  d !! n = Some x -> is_element x = true ->
  classList_add n c d = Ok tt (<[n := with_classList (add_class c (classList x)) x]> d).
Proof.
  intros H E. unfold classList_add.
  rewrite (bind_Ok _ _ _ _ _ (element_at_Ok _ _ _ H E)).
  now apply update_Ok.
Qed.

Lemma style_set_Ok d n k v x :
  d !! n = Some x -> is_element x = true ->
  style_set n k v d = Ok tt (<[n := with_style (Table.set k v (style x)) x]> d).
Proof.
  intros H E. unfold style_set.
  rewrite (bind_Ok _ _ _ _ _ (element_at_Ok _ _ _ H E)).
  now apply update_Ok.
Qed.

Lemma get_prop_Ok d n key x :
  d !! n = Some x ->
  get_prop n key d =
  Ok (match Table.get key (props x) with Some v => v | None => VUndefined end) d.
Proof.
  intros H. unfold get_prop.
  rewrite (bind_Ok _ _ _ _ _ (node_at_Ok _ _ _ H)). reflexivity.
Qed.

Lemma set_prop_Ok d n key v x :
  d !! n = Some x ->
  set_prop n key v d = Ok tt (<[n := with_props (Table.set key v (props x)) x]> d).
Proof.
  intros H. unfold set_prop.
  rewrite (bind_Ok _ _ _ _ _ (node_at_Ok _ _ _ H)).
  now apply update_Ok.
Qed.

Lemma get_parentNode_Ok d n x :
  d !! n = Some x -> get_parentNode n d = Ok (parentNode x) d.
Proof.
  intros H. unfold get_parentNode.
  rewrite (bind_Ok _ _ _ _ _ (node_at_Ok _ _ _ H)). reflexivity.
Qed.

Lemma detach_orphan d c cx :
  d !! c = Some cx -> parentNode cx = None -> detach c d = Ok tt d.
Proof.
  intros H P. unfold detach.
  rewrite (bind_Ok _ _ _ _ _ (node_at_Ok _ _ _ H)), P. reflexivity.
Qed.

(** Appending a node that hangs nowhere yet. *)
Lemma appendChild_orphan d p c px cx :
  d !! p = Some px -> is_parent px = true ->
  d !! c = Some cx -> parentNode cx = None -> p <> c ->
  appendChild p c d =
  Ok c (<[c := with_parentNode (Some p) cx]>
          (<[p := with_childNodes (childNodes px ++ [c]) px]> d)).
Proof.
  intros Hp Ep Hc Pc Hne. unfold appendChild.
  rewrite (bind_Ok _ _ _ _ _ (node_at_Ok _ _ _ Hp)), Ep.
  rewrite (bind_Ok _ _ _ _ _ (detach_orphan _ _ _ Hc Pc)).
  rewrite (bind_Ok _ _ _ _ _ (node_at_Ok _ _ _ Hp)).
  rewrite (bind_Ok _ _ _ _ _ (update_Ok _ _ _ _ Hp)).
  erewrite bind_Ok; [reflexivity|].
  apply update_Ok. now rewrite list_lookup_insert_ne.
Qed.

Lemma detach_attached d c cx p px :
  d !! c = Some cx -> parentNode cx = Some p -> d !! p = Some px -> p <> c ->
  detach c d =
  Ok tt (<[c := with_parentNode None cx]>
           (<[p := with_childNodes (without c (childNodes px)) px]> d)).
Proof.
  intros Hc Pc Hp Hne. unfold detach.
  rewrite (bind_Ok _ _ _ _ _ (node_at_Ok _ _ _ Hc)), Pc.
  rewrite (bind_Ok _ _ _ _ _ (node_at_Ok _ _ _ Hp)).
  rewrite (bind_Ok _ _ _ _ _ (update_Ok _ _ _ _ Hp)).
  apply update_Ok. now rewrite list_lookup_insert_ne.
Qed.

Lemma removeChild_attached d c cx p px :
  d !! c = Some cx -> parentNode cx = Some p -> d !! p = Some px -> p <> c ->
  removeChild p c d =
  Ok c (<[c := with_parentNode None cx]>
          (<[p := with_childNodes (without c (childNodes px)) px]> d)).
Proof.
  intros Hc Pc Hp Hne. unfold removeChild.
  rewrite (bind_Ok _ _ _ _ _ (node_at_Ok _ _ _ Hc)), Pc, Nat.eqb_refl.
  now rewrite (bind_Ok _ _ _ _ _ (detach_attached _ _ _ _ _ Hc Pc Hp Hne)).
Qed.

Lemma without_snoc_fresh c l :
  Forall (fun i => i < c) l -> without c (l ++ [c]) = l.
Proof.
  intros H. unfold without. rewrite List.filter_app. cbn.
  rewrite Nat.eqb_refl. cbn. rewrite app_nil_r.
  induction H as [| i l Hi _ IH]; cbn; [reflexivity |].
  destruct (Nat.eqb_spec i c); [lia | cbn; now rewrite IH].
Qed.

Lemma with_childNodes_same x : with_childNodes (childNodes x) x = x.
Proof. now destruct x. Qed.

Lemma with_attributes_same x : with_attributes (attributes x) x = x.
Proof. now destruct x. Qed.

Lemma is_element_parent x : is_element x = true -> is_parent x = true.
Proof. unfold is_element, is_parent. now destruct (nodeType x). Qed.

Lemma truncatedArrayOfString_Ok (d : Dom.t) outputs linesLimit container x :
  d !! container = Some x -> is_parent x = true ->
  Collaborators.truncatedArrayOfString outputs linesLimit container d =
  Ok tt (<[length d := with_parentNode (Some container)
                         (fresh (TruncatedOutput outputs linesLimit))]>
           (<[container := with_childNodes (childNodes x ++ [length d]) x]>
              (d ++ [fresh (TruncatedOutput outputs linesLimit)]))).
Proof.
  intros Hx Px. pose proof (lookup_lt_Some _ _ _ Hx).
  unfold Collaborators.truncatedArrayOfString.
  erewrite bind_Ok by reflexivity.
  erewrite bind_Ok; [reflexivity |].
  eapply appendChild_orphan; [ | exact Px | | reflexivity | lia ].
  - rewrite lookup_app_l by lia. exact Hx.
  - rewrite lookup_app_r by lia. now rewrite Nat.sub_diag.
Qed.

(** Appending the new script node: the browser runs it where it then
    hangs. *)
Lemma appendScript_Ok runScript d p c px cx :
  d !! p = Some px -> is_parent px = true ->
  d !! c = Some cx -> parentNode cx = None -> p <> c ->
  appendScript runScript p c d =
  Ok c (runScript c
          (<[c := with_parentNode (Some p) cx]>
             (<[p := with_childNodes (childNodes px ++ [c]) px]> d))).
Proof.
  intros Hp Ep Hc Pc Hne. unfold appendScript.
  now rewrite (bind_Ok _ _ _ _ _ (appendChild_orphan _ _ _ _ _ Hp Ep Hc Pc Hne)).
Qed.

End DomFacts.

(** ** Tactics that run the renderers on a document known by lookups *)

Ltac side :=
  first
    [ reflexivity
    | assumption
    | apply DomFacts.is_element_parent; assumption
    | cbn; assumption
    | cbn; apply DomFacts.is_element_parent; assumption ].

Ltac lk := look; first [ reflexivity | eassumption ].

Ltac op :=
  lazymatch goal with
  | |- dom _ _ = _ =>
      apply dom_Ok; cbn [document with_document]; op
  | |- Dom.createNode _ _ = _ => reflexivity
  | |- Dom.createElement _ _ = _ => reflexivity
  | |- Dom.parentElement _ _ = _ => reflexivity
  | |- Dom.previousSibling _ _ = _ => reflexivity
  | |- Dom.firstChild _ _ = _ => reflexivity
  | |- Dom.getElementsByTagName _ _ _ = _ => reflexivity
  | |- createObjectURL _ _ = _ => reflexivity
  | |- revokeObjectURL _ _ = _ => reflexivity
  | |- console_log _ _ = _ => reflexivity
  | |- workspace_isTrusted _ = _ => reflexivity
  | |- disposables_set _ _ _ = _ => reflexivity
  | |- disposables_get _ _ = _ => reflexivity
  | |- disposables_values _ = _ => reflexivity
  | |- ret _ _ = _ => reflexivity
  | |- Dom.node_at _ _ = _ => apply DomFacts.node_at_Ok; lk
  | |- Dom.get_parentNode _ _ = _ => eapply DomFacts.get_parentNode_Ok; lk
  | |- Dom.get_prop _ _ _ = _ => eapply DomFacts.get_prop_Ok; lk
  | |- Dom.set_prop _ _ _ _ = _ => eapply DomFacts.set_prop_Ok; lk
  | |- Dom.getAttribute _ _ _ = _ => eapply DomFacts.getAttribute_Ok; [ lk | side ]
  | |- Dom.setAttribute _ _ _ _ = _ => eapply DomFacts.setAttribute_Ok; [ lk | side ]
  | |- Dom.classList_add _ _ _ = _ => eapply DomFacts.classList_add_Ok; [ lk | side ]
  | |- Dom.style_set _ _ _ _ = _ => eapply DomFacts.style_set_Ok; [ lk | side ]
  | |- Dom.appendChild _ _ _ = _ =>
      eapply DomFacts.appendChild_orphan; [ lk | side | lk | reflexivity | len ]
  | |- appendScript _ _ _ _ = _ =>
      eapply DomFacts.appendScript_Ok; [ lk | side | lk | reflexivity | len ]
  | |- Dom.removeChild _ _ _ = _ =>
      eapply DomFacts.removeChild_attached; [ lk | reflexivity | lk | len ]
  | |- Collaborators.handleANSIOutput _ _ = _ => reflexivity
  | |- Collaborators.truncatedArrayOfString _ _ _ _ = _ =>
      eapply DomFacts.truncatedArrayOfString_Ok; [ lk | side ]
  end.

(** One statement of a sequence. *)
(** The last statement. *)
Ltac last_step := etransitivity; [ op | ]; autorewrite with doc_norm.

Ltac step :=
  rewrite ?bind_bind;
  erewrite bind_Ok; [ | op ]; cbn beta iota; autorewrite with doc_norm.

(** Two documents are the same when they agree at the touched node, at
    the other old nodes, at each new node and beyond. *)
Ltac heap_case :=
  first
    [ solve [ look; autorewrite with doc_norm; rewrite <- ?app_assoc; reflexivity ]
    | solve [ rewrite !lookup_ge_None_2 by len; reflexivity ] ].

Ltac heap_eq el n :=
  apply list_eq; intros ?i;
  match goal with
  | i : nat |- _ !! i = _ !! i =>
      destruct (decide (i = el)) as [-> | ?]; [ heap_case | ];
      destruct (decide (i < n)); [ heap_case | ];
      destruct (decide (i = n)) as [-> | ?]; [ heap_case | ];
      destruct (decide (i = S n)) as [-> | ?]; [ heap_case | ];
      destruct (decide (i = S (S n))) as [-> | ?]; [ heap_case | ];
      heap_case
  end.

(** ** Tables *)

Module TableFacts.

Lemma get_set_eq {V} k (v : V) m : Table.get k (Table.set k v m) = Some v.
Proof.
  induction m as [| [k' v'] m IH]; cbn.
  - now rewrite String.eqb_refl.
  - destruct (String.eqb_spec k' k) as [-> | N]; cbn.
    + now rewrite String.eqb_refl.
    + now rewrite (proj2 (String.eqb_neq _ _) N).
Qed.

Lemma get_set_ne {V} k k' (v : V) m :
  k <> k' -> Table.get k' (Table.set k v m) = Table.get k' m.
Proof.
  intros Hne. induction m as [| [k0 v0] m IH]; cbn.
  - now rewrite (proj2 (String.eqb_neq _ _) Hne).
  - destruct (String.eqb_spec k0 k) as [-> | N]; cbn.
    + now rewrite (proj2 (String.eqb_neq _ _) Hne).
    + now rewrite IH.
Qed.

Lemma get_absent {V} k (m : Table.t V) :
  ~ In k (map fst m) -> Table.get k m = None.
Proof.
  induction m as [| [k' v] m IH]; cbn; [reflexivity |].
  intros H. destruct (String.eqb_spec k' k) as [-> | N]; [tauto | apply IH; tauto].
Qed.


Lemma Forall_values_set {V} (P : V -> Prop) k v m :
  Forall P (Table.values m) -> P v -> Forall P (Table.values (Table.set k v m)).
Proof.
  intros Hm Hv. induction m as [| [k' v'] m IH]; cbn.
  - now constructor.
  - apply Forall_cons_1 in Hm as [Hv' Hm].
    destruct (String.eqb k' k); cbn; constructor; auto.
Qed.


End TableFacts.

(** ** Counting in the log of disposer calls *)

Lemma count_occ_absent (l : list nat) u :
  Forall (fun v => v <> u) l -> count_occ Nat.eq_dec l u = 0.
Proof.
  intros H. apply count_occ_not_In. intros Hin.
  rewrite Forall_forall in H. apply (H u); [now apply list_elem_of_In | reflexivity].
Qed.

Lemma Forall_src_of (P : nat -> Prop) ds :
  Forall (fun d => P (src_of d)) ds -> Forall P (map src_of ds).
Proof. induction 1; cbn; constructor; auto. Qed.

(** After [set k (RevokeOnDispose u)] on a registry that did not hold
    [u], exactly one entry releases [u]. *)
Lemma count_after_set k u (m : Table.t IDisposable) :
  Forall (fun d => src_of d <> u) (Table.values m) ->
  count_occ Nat.eq_dec (map src_of (Table.values (Table.set k (RevokeOnDispose u) m))) u = 1.
Proof.
  intros Hm. unfold Table.values.
  induction m as [| [k' d] m IH]; cbn [Table.set map snd src_of].
  - now rewrite count_occ_cons_eq.
  - apply Forall_cons_1 in Hm as [Hd Hm].
    destruct (String.eqb k' k); cbn [map snd src_of].
    + rewrite count_occ_cons_eq by reflexivity.
      f_equal. apply count_occ_absent. now apply Forall_src_of.
    + rewrite count_occ_cons_neq by assumption. now apply IH.
Qed.

(** ** Code that leaves object URLs, the log and the registry alone *)

Section Keeps.
Context {A B : Type}.

Lemma same_resources_refl w : same_resources w w.
Proof. now repeat split. Qed.

Lemma same_resources_trans w1 w2 w3 :
  same_resources w1 w2 -> same_resources w2 w3 -> same_resources w1 w3.
Proof. intros (? & ? & ?) (? & ? & ?). repeat split; congruence. Qed.

Lemma keeps_ret (Q : A -> Prop) a : Q a -> keeps Q (ret a).
Proof. intros H w. split; [apply same_resources_refl |]. now intros ? ? [= <- _]. Qed.

Lemma keeps_throw (Q : A -> Prop) e : keeps Q (throw e).
Proof. intros w. split; [apply same_resources_refl | discriminate]. Qed.

Lemma keeps_dom (m : M Dom.t A) : keeps (fun _ => True) (dom m).
Proof.
  intros w. split; [| trivial].
  unfold dom, lift. destruct (m (document w)); now repeat split.
Qed.

Lemma keeps_bind (Q1 : A -> Prop) (Q2 : B -> Prop) m (k : A -> M World B) :
  keeps Q1 m -> (forall a, Q1 a -> keeps Q2 (k a)) -> keeps Q2 (bind m k).
Proof.
  intros Hm Hk w. destruct (Hm w) as [Hs Hq]. unfold bind.
  destruct (m w) as [a w1 | e w1] eqn:E; cbn in *.
  - destruct (Hk a (Hq _ _ eq_refl) w1) as [Hs' Hq'].
    split; [eapply same_resources_trans; eauto | auto].
  - split; [assumption | discriminate].
Qed.

End Keeps.

Lemma keeps_console_log e : keeps (fun _ => True) (console_log e).
Proof. intros w. split; [now repeat split | trivial]. Qed.

Lemma keeps_isTrusted : keeps (fun _ => True) workspace_isTrusted.
Proof. intros w. split; [now repeat split | trivial]. Qed.

Create HintDb keeps.
#[global] Hint Resolve keeps_dom keeps_console_log keeps_isTrusted keeps_throw : keeps.
#[global] Hint Extern 1 (keeps _ (ret _)) => apply keeps_ret; trivial : keeps.
#[global] Hint Extern 2 (keeps _ (bind _ _)) =>
  eapply (keeps_bind (fun _ => True)); [ | intros ? _ ] : keeps.
#[global] Hint Extern 3 (keeps _ (if ?b then _ else _)) => destruct b : keeps.
#[global] Hint Extern 3 (keeps _ (match ?o with _ => _ end)) => destruct o : keeps.

(** * Properties of the renderers *)

Section Properties.
Import Dom Markup Collaborators DomFacts.

Variable trustedTypes : bool.
Variable parseFragment : string -> list HtmlTree.
Variable JSON_parse : string -> Parsed.
Variable runScript : nid -> Dom.t -> Dom.t.

Abbreviation renderOutputItem :=
  (renderOutputItem trustedTypes parseFragment JSON_parse runScript).
Abbreviation renderHTML := (renderHTML trustedTypes parseFragment runScript).
Abbreviation renderJavascript :=
  (renderJavascript trustedTypes parseFragment runScript).
Abbreviation run_strategy :=
  (run_strategy trustedTypes parseFragment JSON_parse runScript).
Abbreviation host_call := (host_call trustedTypes parseFragment JSON_parse runScript).
Abbreviation host_calls := (host_calls trustedTypes parseFragment JSON_parse runScript).
Abbreviation domEval := (domEval trustedTypes runScript).
Abbreviation revive := (revive trustedTypes runScript).
Abbreviation inject := (inject trustedTypes runScript).

(** C9.  A stream render whose surface has no parent element does
    nothing: it returns normally and the document is the one it was
    given. *)
Theorem renderStream_without_parent outputInfo container error (d : Dom.t) :
  parentElement_of d container = None ->
  renderStream outputInfo container error d = Ok tt d.
Proof.
  intros H. unfold renderStream.
  erewrite bind_Ok by reflexivity.
  now rewrite H.
Qed.

(** C1.  For the markup and script mimes, an untrusted workspace makes
    [renderOutputItem] return the world untouched (document and registry
    alike); a trusted one makes it run the markup or the script
    renderer. *)
Theorem trust_gate outputInfo element w :
  In (OutputItem.mime outputInfo)
     ["text/html"; "image/svg+xml"; "application/javascript"] ->
  (isTrusted w = false -> renderOutputItem outputInfo element w = Ok tt w) /\
  (isTrusted w = true ->
   renderOutputItem outputInfo element w =
   if String.eqb (OutputItem.mime outputInfo) "application/javascript"
   then dom (renderJavascript outputInfo element) w
   else dom (renderHTML outputInfo element) w).
Proof.
  intros Hin. unfold renderOutputItem.
  simpl in Hin.
  destruct Hin as [E | [E | [E | []]]]; rewrite <- E; simpl;
    (split; intros T; unfold bind, workspace_isTrusted; rewrite T; reflexivity).
Qed.

(** ** Dispatch *)

Lemma is_one_of_cons s c cases :
  is_one_of s (c :: cases) = String.eqb s c || is_one_of s cases.
Proof. reflexivity. Qed.

Local Ltac row m s :=
  destruct (String.eqb_spec m s) as [-> | ?];
  [ simpl; unfold bind, workspace_isTrusted;
    try destruct (isTrusted _); reflexivity | ].

Lemma renderOutputItem_by_table outputInfo element w :
  renderOutputItem outputInfo element w =
  match Table.get (OutputItem.mime outputInfo) dispatch_table with
  | Some s => run_strategy s outputInfo element w
  | None => Ok tt w
  end.
Proof.
  unfold renderOutputItem. cbv zeta.
  generalize (OutputItem.mime outputInfo) as m. intros m.
  row m "text/html". row m "image/svg+xml". row m "application/javascript".
  row m "image/gif". row m "image/png". row m "image/jpeg". row m "image/git".
  row m "application/vnd.code.notebook.error".
  row m "application/vnd.code.notebook.stdout".
  row m "application/x.notebook.stdout". row m "application/x.notebook.stream".
  row m "application/vnd.code.notebook.stderr".
  row m "application/x.notebook.stderr". row m "text/plain".
  unfold dispatch_table. cbn [Table.get].
  rewrite !(String.eqb_sym _ m).
  repeat rewrite is_one_of_cons.
  repeat match goal with
         | H : m <> _ |- _ => rewrite (proj2 (String.eqb_neq _ _) H); clear H
         end.
  reflexivity.
Qed.

(** C6.  For every row of the dispatch table, [renderOutputItem] on the
    row's mime string does what the row's strategy does; on a string that
    heads no row it returns the world untouched. *)
Theorem dispatch_follows_table outputInfo element w :
  (forall s, In (OutputItem.mime outputInfo, s) dispatch_table ->
             renderOutputItem outputInfo element w =
             run_strategy s outputInfo element w) /\
  (~ In (OutputItem.mime outputInfo) (map fst dispatch_table) ->
   renderOutputItem outputInfo element w = Ok tt w).
Proof.
  rewrite renderOutputItem_by_table. split.
  - intros s Hrow. unfold dispatch_table in Hrow. cbn [In] in Hrow.
    repeat (destruct Hrow as [[= <- <-] | Hrow]; [reflexivity |]).
    contradiction.
  - intros Hnone.
    rewrite (TableFacts.get_absent _ _ Hnone). reflexivity.
Qed.



(** ** Images and the registry *)

Lemma renderImage_Ok outputInfo element w x :
  document w !! element = Some x -> is_parent x = true ->
  renderImage outputInfo element w =
  Ok (RevokeOnDispose (length (objectURLs w))) (image_shown outputInfo element x w).
Proof.
  intros Hx Px. bounds. unfold renderImage, image_shown. cbv zeta.
  step. step. cbn [document with_objectURLs]. step. step. step. step. step.
  unfold ret, with_document. cbn. do 2 f_equal.
  heap_eq element (length (document w)).
Qed.

Lemma is_image_mime outputInfo :
  In (OutputItem.mime outputInfo) image_mimes ->
  Table.get (OutputItem.mime outputInfo) dispatch_table = Some Image.
Proof.
  intros H. cbn in H.
  destruct H as [<- | [<- | [<- | [<- | []]]]]; reflexivity.
Qed.

Lemma render_image_Ok outputInfo element w x :
  In (OutputItem.mime outputInfo) image_mimes ->
  document w !! element = Some x -> is_parent x = true ->
  renderOutputItem outputInfo element w =
  Ok tt (with_disposables
           (Table.set (OutputItem.id outputInfo)
              (RevokeOnDispose (length (objectURLs w))) (disposables w))
           (image_shown outputInfo element x w)).
Proof.
  intros Hm Hx Px.
  rewrite renderOutputItem_by_table, (is_image_mime _ Hm). cbn [run_strategy].
  rewrite (bind_Ok _ _ _ _ _ (renderImage_Ok _ _ _ _ Hx Px)).
  reflexivity.
Qed.

(** *** Disposal *)

Lemma for_of_dispose ds w :
  for_of ds dispose w = Ok tt (with_revoked (revoked w ++ map src_of ds) w).
Proof.
  revert w. induction ds as [| d ds IH]; intros w; cbn [for_of map].
  - rewrite app_nil_r. now destruct w.
  - unfold bind. destruct d as [src]. cbn [dispose revokeObjectURL src_of].
    rewrite IH. cbn. now rewrite <- app_assoc.
Qed.

Lemma disposeOutputItem_Ok id w :
  disposeOutputItem id w =
  Ok tt (with_revoked (revoked w ++ map src_of (reached id (disposables w))) w).
Proof.
  unfold disposeOutputItem, reached.
  destruct (present id).
  - unfold bind, disposables_get.
    destruct (Table.get (default "" id) (disposables w)) as [[src] |]; cbn.
    + reflexivity.
    + rewrite app_nil_r. now destruct w.
  - unfold bind, disposables_values. apply for_of_dispose.
Qed.

(** C2, as the code has it.  A call of [disposeOutputItem] calls each
    disposer it reaches exactly once, in registry order, and changes
    nothing but the log of those calls: the registry keeps every entry.
    A second call with the same argument therefore reaches the same
    disposers and calls each of them once more. *)
Theorem dispose_keeps_registry id w :
  let ds := map src_of (reached id (disposables w)) in
  disposeOutputItem id w = Ok tt (with_revoked (revoked w ++ ds) w) /\
  (disposeOutputItem id ;; disposeOutputItem id) w =
    Ok tt (with_revoked (revoked w ++ ds ++ ds) w) /\
  disposables (world_of (disposeOutputItem id w)) = disposables w.
Proof.
  cbv zeta. split; [apply disposeOutputItem_Ok |]. split.
  - rewrite (bind_Ok _ _ _ _ _ (disposeOutputItem_Ok id w)).
    rewrite disposeOutputItem_Ok. cbn. now rewrite <- app_assoc.
  - now rewrite disposeOutputItem_Ok.
Qed.

(** *** One image, one disposer *)

Lemma calls_of_after_dispose u id w w' :
  disposeOutputItem id w = Ok tt w' ->
  calls_of u w' =
  calls_of u w + count_occ Nat.eq_dec (map src_of (reached id (disposables w))) u.
Proof.
  rewrite disposeOutputItem_Ok. intros [= <-]. unfold calls_of. cbn.
  apply count_occ_app.
Qed.

Lemma registry_issued_forgets w :
  registry_issued w ->
  Forall (fun d => src_of d <> length (objectURLs w)) (Table.values (disposables w)).
Proof.
  unfold registry_issued. intros H. eapply Forall_impl; [exact H |].
  cbn. intros d. lia.
Qed.

Lemma reached_after_set id u (m : Table.t IDisposable) :
  Forall (fun d => src_of d <> u) (Table.values m) ->
  count_occ Nat.eq_dec
    (map src_of (reached (Some id) (Table.set id (RevokeOnDispose u) m))) u = 1.
Proof.
  intros Hm. unfold reached. cbn [present default].
  destruct (String.eqb id ""); cbn [negb].
  - now apply count_after_set.
  - rewrite TableFacts.get_set_eq. cbn [map src_of].
    now rewrite count_occ_cons_eq.
Qed.

(** C8.  With a raster-image mime, [renderOutputItem] renders whatever
    the trust flag says, and sets exactly one registry entry: the one
    under the payload's id, to the disposer of the object URL it has just
    created.  No other entry holds that disposer, and the first
    [disposeOutputItem] for the id calls it exactly once. *)
Theorem image_registers_one_disposer outputInfo element w x :
  In (OutputItem.mime outputInfo) image_mimes ->
  document w !! element = Some x -> is_parent x = true ->
  registry_issued w ->
  let id := OutputItem.id outputInfo in
  let u := length (objectURLs w) in
  let w1 := with_disposables (Table.set id (RevokeOnDispose u) (disposables w))
              (image_shown outputInfo element x w) in
  (forall trusted,
     renderOutputItem outputInfo element (with_isTrusted trusted w) =
     Ok tt (with_isTrusted trusted w1)) /\
  renderOutputItem outputInfo element w = Ok tt w1 /\
  Table.get id (disposables w1) = Some (RevokeOnDispose u) /\
  (forall k, k <> id -> Table.get k (disposables w1) = Table.get k (disposables w)) /\
  count_occ Nat.eq_dec (map src_of (Table.values (disposables w1))) u = 1 /\
  exists w2, disposeOutputItem (Some id) w1 = Ok tt w2 /\
             calls_of u w2 = S (calls_of u w1).
Proof.
  intros Hm Hx Px Hreg id u w1.
  pose proof (registry_issued_forgets _ Hreg) as Hfresh.
  split.
  { intros trusted.
    now rewrite (render_image_Ok _ _ (with_isTrusted trusted w) x Hm Hx Px). }
  split; [now apply render_image_Ok |].
  split; [apply TableFacts.get_set_eq |].
  split; [intros k Hk; apply TableFacts.get_set_ne; congruence |].
  split; [now apply count_after_set |].
  eexists. split; [apply disposeOutputItem_Ok |].
  erewrite calls_of_after_dispose by apply disposeOutputItem_Ok.
  rewrite <- Nat.add_1_r. f_equal.
  now apply reached_after_set.
Qed.

(** *** What any call can do to object URLs, the log and the registry *)

Lemma keeps_renderError outputInfo container :
  keeps (fun _ => True) (renderError JSON_parse outputInfo container).
Proof.
  unfold renderError.
  destruct (JSON_parse (OutputItem.text outputInfo)); auto 20 with keeps.
Qed.

Lemma renderImage_resources outputInfo element w :
  let u := length (objectURLs w) in
  let w0 := with_objectURLs
              (objectURLs w ++
               [new_Blob [OutputItem.data outputInfo] (OutputItem.mime outputInfo)]) w in
  same_resources w0 (world_of (renderImage outputInfo element w)) /\
  (forall d w', renderImage outputInfo element w = Ok d w' -> d = RevokeOnDispose u).
Proof.
  intros u w0. unfold renderImage. cbv zeta.
  unfold bind at 1. cbn [createObjectURL]. fold u. fold w0.
  match goal with
  | |- same_resources _ (world_of (?m w0)) /\ _ =>
      assert (K : keeps (fun d => d = RevokeOnDispose u) m) by auto 20 with keeps
  end.
  apply K.
Qed.

(** A render never touches the log; it may hand out object URLs; and it
    leaves the registry as it was or sets the entry of its payload to the
    disposer of the URL it has handed out. *)
Lemma render_resources outputInfo element w :
  let w' := world_of (renderOutputItem outputInfo element w) in
  revoked w' = revoked w /\
  length (objectURLs w) <= length (objectURLs w') /\
  (disposables w' = disposables w \/
   disposables w' =
     Table.set (OutputItem.id outputInfo)
       (RevokeOnDispose (length (objectURLs w))) (disposables w) /\
   length (objectURLs w) < length (objectURLs w')).
Proof.
  cbv zeta. rewrite renderOutputItem_by_table.
  assert (Hkeeps : forall m : M World unit, keeps (fun _ => True) m ->
            revoked (world_of (m w)) = revoked w /\
            length (objectURLs w) <= length (objectURLs (world_of (m w))) /\
            (disposables (world_of (m w)) = disposables w \/
             disposables (world_of (m w)) =
               Table.set (OutputItem.id outputInfo)
                 (RevokeOnDispose (length (objectURLs w))) (disposables w) /\
             length (objectURLs w) < length (objectURLs (world_of (m w))))).
  { intros m K. destruct (K w) as [(Hu & Hr & Hd) _].
    rewrite Hu, Hr, Hd. auto. }
  destruct (Table.get (OutputItem.mime outputInfo) dispatch_table) as [[| | | | isError |] |];
    cbn [run_strategy].
  - apply (Hkeeps (fun w => if isTrusted w then _ w else Ok tt w)).
    intros w0. destruct (isTrusted w0); [apply keeps_dom | apply (keeps_ret _ tt I)].
  - apply (Hkeeps (fun w => if isTrusted w then _ w else Ok tt w)).
    intros w0. destruct (isTrusted w0); [apply keeps_dom | apply (keeps_ret _ tt I)].
  - destruct (renderImage_resources outputInfo element w) as [(Hu & Hr & Hd) Hv].
    unfold bind.
    destruct (renderImage outputInfo element w) as [d w1 | e w1]; cbn in *.
    + rewrite (Hv _ _ eq_refl), Hu, Hr, Hd. rewrite length_app. cbn.
      split; [reflexivity |]. split; [lia |]. right. split; [reflexivity | lia].
    + rewrite Hu, Hr, Hd, length_app. cbn. split; [reflexivity |]. split; [lia | auto].
  - apply Hkeeps, keeps_renderError.
  - apply Hkeeps, keeps_dom.
  - apply Hkeeps, keeps_dom.
  - cbn. auto.
Qed.



(** The registry only ever holds disposers of object URLs that have been
    handed out: true once [activate] has run, and kept by every call. *)
Lemma registry_issued_activate w :
  registry_issued (world_of (activate w)).
Proof. constructor. Qed.

Lemma registry_issued_host_call c w :
  registry_issued w -> registry_issued (host_call c w).
Proof.
  unfold registry_issued. intros Hreg.
  destruct c as [outputInfo element | id]; cbn [host_call].
  - destruct (render_resources outputInfo element w) as (_ & Hl & Hd).
    cbv zeta in *.
    assert (Hold : Forall
              (fun d => src_of d <
                 length (objectURLs (world_of (renderOutputItem outputInfo element w))))
              (Table.values (disposables w))).
    { eapply Forall_impl; [exact Hreg |]. cbn. intros d. lia. }
    destruct Hd as [-> | [-> Hlt]]; [exact Hold |].
    apply TableFacts.Forall_values_set; [exact Hold | exact Hlt].
  - now rewrite disposeOutputItem_Ok.
Qed.

(** *** The disposer an overwrite leaves behind *)









(** ** Structured errors *)

Lemma present_filled field :
  present field = match filled field with Some _ => true | None => false end.
Proof. destruct field as [[| c s] |]; reflexivity. Qed.

Lemma filled_Some field s : filled field = Some s -> field = Some s.
Proof. destruct field as [[| c r] |]; cbn; congruence. Qed.

(** C4, as the code has it.  When the text of a structured-error payload
    does not decode, [renderError] logs the exception and returns
    normally; by then it has appended one empty [div] to the surface, and
    that is all it has done: no header, no traceback, no error class. *)
Theorem renderError_undecodable outputInfo container w x e :
  JSON_parse (OutputItem.text outputInfo) = ParseThrows e ->
  document w !! container = Some x -> is_parent x = true ->
  renderError JSON_parse outputInfo container w =
  Ok tt (with_console (console w ++ [e])
           (with_document
              (<[container := grown [length (document w)] x]> (document w)
               ++ [placeholder container]) w)).
Proof.
  intros Hparse Hx Px. bounds. unfold renderError.
  step. step. rewrite Hparse. step.
  unfold ret, with_console, with_document. cbn. do 2 f_equal.
  heap_eq container (length (document w)).
Qed.

(** A text that decodes to [null] is another matter: reading [err.stack]
    throws, after the [div] has been appended, and the caller sees it. *)
Remark renderError_null outputInfo container w x :
  JSON_parse (OutputItem.text outputInfo) = ParsedNull ->
  document w !! container = Some x -> is_parent x = true ->
  renderError JSON_parse outputInfo container w =
  Throw (TypeError "Cannot read properties of null")
    (with_document
       (<[container := grown [length (document w)] x]> (document w)
        ++ [placeholder container]) w).
Proof.
  intros Hparse Hx Px. bounds. unfold renderError.
  step. step. rewrite Hparse.
  unfold throw, with_document. cbn. do 2 f_equal.
  heap_eq container (length (document w)).
Qed.

Lemma present_headerMessage err :
  present (headerMessage_of err) =
  match header_of err with Some _ => true | None => false end.
Proof.
  unfold headerMessage_of, header_of.
  destruct (name err) as [[| c n] |], (message err) as [[| c' m] |]; reflexivity.
Qed.

Lemma headerMessage_line err line :
  header_of err = Some line -> default "" (headerMessage_of err) = line.
Proof.
  unfold headerMessage_of, header_of.
  destruct (name err) as [[| c n] |], (message err) as [[| c' m] |]; cbn;
    congruence.
Qed.

(** C7, as the code has it.  When the text decodes to a record:
    with a stack that is there and not empty, [renderError] appends a
    [pre.traceback] holding the ANSI-formatted stack, whatever name and
    message are; otherwise it appends the header line "name: message",
    or the one of name and message that is there and not empty, or
    nothing when neither is.  In each case the surface gets the class
    "error". *)
Theorem renderError_decoded outputInfo container w x err :
  JSON_parse (OutputItem.text outputInfo) = ParsedRecord err ->
  document w !! container = Some x -> is_element x = true ->
  renderError JSON_parse outputInfo container w =
  Ok tt (with_document (error_shown err container x (document w)) w).
Proof.
  intros Hparse Hx Ex. bounds. unfold renderError, error_shown. cbv zeta.
  step. step. rewrite Hparse.
  rewrite (present_filled (stack err)).
  destruct (filled (stack err)) as [trace |] eqn:Hstack.
  - apply filled_Some in Hstack. rewrite Hstack. cbn [default].
    step. step. step. step. step. step. step. last_step.
    unfold with_document. cbn. do 2 f_equal.
    heap_eq container (length (document w)).
  - rewrite bind_bind. step.
    rewrite present_headerMessage.
    destruct (header_of err) as [line |] eqn:Hline.
    + rewrite (headerMessage_line _ _ Hline).
      step. step. step. last_step.
      unfold with_document. cbn. do 2 f_equal.
      heap_eq container (length (document w)).
    + step. last_step.
      unfold with_document. cbn. do 2 f_equal.
      heap_eq container (length (document w)).
Qed.

(** ** Streams *)

Lemma qualified_marker x : qualified x "output-mime-type" = marker.
Proof. unfold qualified. now destruct (html_namespace x). Qed.

Lemma renderStream_new_block outputInfo container (error : bool) (d : Dom.t) x :
  d !! container = Some x -> is_element x = true ->
  (element <- createElement "span" ;;
   classList_add element "output-stream" ;;
   truncatedArrayOfString [OutputItem.text outputInfo] 30 element ;;
   appendChild container element ;;
   setAttribute container "output-mime-type" (OutputItem.mime outputInfo) ;;
   if error then classList_add container "error" else ret tt : M Dom.t unit) d =
  Ok tt (stream_block outputInfo error container x d).
Proof.
  intros Hx Ex. bounds. unfold stream_block.
  step. step. step. step. step. rewrite qualified_marker.
  destruct error.
  - last_step. f_equal. heap_eq container (length d).
  - unfold ret. f_equal. heap_eq container (length d).
Qed.

(** C5.  A stream render whose slot has a slot before it, the first
    child of which is marked with the payload's mime, puts its truncated
    text into that child and leaves every other node as it was, the
    surface included; this covers the slot with exactly one content
    child.  When there is no slot before, or it is empty, or its first
    child bears another mark or none (as the surface of an output that is
    no stream does), the render makes the surface a new block: the text
    in a [span.output-stream], the mark set to the payload's mime, and
    the class "error" for an error stream. *)
Theorem stream_coalescing outputInfo container error (d : Dom.t) outputContainer :
  parentElement_of d container = Some outputContainer ->
  (forall prev c cx,
     previousSibling_of d outputContainer = Some prev ->
     firstChild_of d prev = Some c ->
     d !! c = Some cx -> is_element cx = true ->
     Table.get marker (attributes cx) = Some (OutputItem.mime outputInfo) ->
     renderStream outputInfo container error d =
     Ok tt (stream_appended outputInfo c cx d)) /\
  (forall x,
     d !! container = Some x -> is_element x = true ->
     (previousSibling_of d outputContainer = None \/
      exists prev, previousSibling_of d outputContainer = Some prev /\
        (firstChild_of d prev = None \/
         exists c cx, firstChild_of d prev = Some c /\
           d !! c = Some cx /\ is_element cx = true /\
           Table.get marker (attributes cx) <> Some (OutputItem.mime outputInfo))) ->
     renderStream outputInfo container error d =
     Ok tt (stream_block outputInfo error container x d)).
Proof.
  intros Hparent. split.
  - intros prev c cx Hprev Hfirst Hc Ec Hmark. bounds.
    unfold renderStream, stream_appended. cbv zeta.
    step. rewrite Hparent. step. rewrite Hprev. step. rewrite Hfirst.
    step. rewrite qualified_marker, Hmark.
    rewrite bool_decide_eq_true_2 by reflexivity.
    step. step. step.
    unfold ret. f_equal. heap_eq c (length d).
  - intros x Hx Ex Hnot.
    unfold renderStream. cbv zeta.
    step. rewrite Hparent. step.
    destruct Hnot as [-> | (prev & -> & [Hfirst | (c & cx & Hfirst & Hc & Ec & Hmark)])].
    + now apply renderStream_new_block.
    + step. rewrite Hfirst. now apply renderStream_new_block.
    + step. rewrite Hfirst. step. rewrite qualified_marker.
      rewrite bool_decide_eq_false_2 by assumption.
      now apply renderStream_new_block.
Qed.

(** ** Script revival *)

(** The loop over [preservedScriptAttributes], run on a document whose
    last node is the script node under construction. *)
Lemma copy_preserved_attributes keys (d : Dom.t) node x y :
  d !! node = Some x -> is_element x = true ->
  is_element y = true -> html_namespace y = true ->
  for_of keys (fun key =>
    own <- get_prop node key ;;
    val <- (if truthy own then ret own
            else x <- node_at node ;;
                 if is_element x
                 then a <- getAttribute node key ;; ret (of_option a)
                 else ret VUndefined) ;;
    if truthy val then setAttribute (length d) key (toString val)
    else ret tt) (d ++ [y]) =
  Ok tt (d ++ [with_attributes (fold_left (copy_attribute x) keys (attributes y)) y]).
Proof.
  intros Hx Ex. revert y. induction keys as [| key keys IH]; intros y Ey Ny.
  - cbn. now rewrite with_attributes_same.
  - bounds. cbn [for_of fold_left].
    assert (Hbody :
      forall k : unit -> M Dom.t unit,
        bind (own <- get_prop node key ;;
              val <- (if truthy own then ret own
                      else x <- node_at node ;;
                           if is_element x
                           then a <- getAttribute node key ;; ret (of_option a)
                           else ret VUndefined) ;;
              if truthy val then setAttribute (length d) key (toString val)
              else ret tt) k (d ++ [y]) =
        k tt (d ++ [with_attributes (copy_attribute x (attributes y) key) y])).
    { intros k. step. fold (prop_of x key).
      unfold copy_attribute, preserved_value, or_else.
      assert (Hname : qualified y key = toLowerCase key)
        by (unfold qualified; now rewrite Ny).
      destruct (truthy (prop_of x key)) eqn:Town.
      - step. rewrite Town. step. now rewrite insert_snoc, Hname.
      - step. rewrite Ex. step. step.
        destruct (truthy (of_option _)) eqn:Tattr.
        + step. now rewrite insert_snoc, Hname.
        + step. now rewrite with_attributes_same. }
    rewrite Hbody. rewrite IH by assumption. reflexivity.
Qed.

Lemma only_script_is_there (d : Dom.t) container node :
  getElementsByTagName_of d container "script" = [node] ->
  exists x, d !! node = Some x /\ has_tag "script" x = true.
Proof.
  intros H.
  assert (Hin : In node (getElementsByTagName_of d container "script"))
    by (rewrite H; now left).
  apply filter_In in Hin as [_ Htag]. unfold tagged in Htag.
  destruct (d !! node) as [x |]; [eauto | discriminate].
Qed.

Lemma has_tag_element tag x : has_tag tag x = true -> is_element x = true.
Proof. unfold has_tag, is_element. now destruct (nodeType x). Qed.

Lemma domEval_unfold container :
  domEval container =
  (arr <- getElementsByTagName container "script" ;;
   for_of arr (revive container)).
Proof. reflexivity. Qed.

(** One round of the loop, up to the run of the new script. *)
Lemma revive_runs container node (d : Dom.t) x old :
  d !! container = Some x -> is_parent x = true ->
  d !! node = Some old -> is_element old = true ->
  revive container node d =
  take_out (length d) (runScript (length d) (script_inserted container x old d)).
Proof.
  intros Hx Px Hold Eold. bounds. unfold revive, take_out.
  step. step. fold (prop_of old "innerText").
  assert (Htext :
    VStr (toString
      match ttPolicy trustedTypes with
      | Some policy => VStr (createScript policy (toString (prop_of old "innerText")))
      | None => prop_of old "innerText"
      end) = VStr (toString (prop_of old "innerText"))).
  { unfold ttPolicy. now destruct trustedTypes. }
  rewrite Htext. clear Htext.
  step. rewrite insert_snoc, ?bind_bind.
  erewrite bind_Ok;
    [ | apply (copy_preserved_attributes _ _ _ old);
        [exact Hold | exact Eold | reflexivity | reflexivity] ].
  cbn [with_attributes with_props fresh attributes props nodeType classList style
       parentNode childNodes Table.set].
  step. cbn beta.
  match goal with
  | |- _ (runScript _ ?a) = _ (runScript _ ?b) => replace a with b; [reflexivity |]
  end.
  unfold script_inserted, revived, grown.
  heap_eq container (length d).
Qed.

Lemma take_out_attached n p y px (d : Dom.t) :
  d !! n = Some y -> parentNode y = Some p -> d !! p = Some px -> p <> n ->
  take_out n d = Ok tt (taken_out n p y px d).
Proof.
  intros Hn Hp Hpx Hne. unfold take_out.
  rewrite (bind_Ok _ _ _ _ _ (get_parentNode_Ok _ _ _ Hn)), Hp.
  now rewrite (bind_Ok _ _ _ _ _ (removeChild_attached _ _ _ _ _ Hn Hp Hpx Hne)).
Qed.


(** Taking the new node out again where the script has changed nothing. *)
Lemma taken_out_inserted container x old (d : Dom.t) :
  d !! container = Some x ->
  Forall (fun i => i < length d) (childNodes x) ->
  taken_out (length d) container
    (with_parentNode (Some container) (revived old)) (grown [length d] x)
    (script_inserted container x old d) =
  d ++ [revived old].
Proof.
  intros Hx Hkids. bounds. unfold taken_out, script_inserted, grown.
  cbn [childNodes with_childNodes].
  rewrite without_snoc_fresh by exact Hkids.
  apply list_eq. intros i.
  destruct (decide (i = container)) as [-> | ?].
  - look. rewrite Hx. f_equal. now destruct x.
  - destruct (decide (i < length d)); [heap_case |].
    destruct (decide (i = length d)) as [-> | ?]; [heap_case | heap_case].
Qed.

Lemma for_of_one {S A} (a : A) (body : A -> M S unit) s :
  for_of [a] body s = body a s.
Proof.
  cbn [for_of]. unfold bind, ret. now destruct (body a s) as [[] s' | e s'].
Qed.


(** * Further properties *)

(** ** Plain text *)

(** X1.  [renderText] appends to the surface one [div] with the class
    ".output-plaintext" (the dot is part of the class name) that holds
    the truncated text, and leaves every other node as it was. *)
Theorem renderText_appends outputInfo container (d : Dom.t) x :
  d !! container = Some x -> is_parent x = true ->
  renderText outputInfo container d = Ok tt (text_shown outputInfo container x d).
Proof.
  intros Hx Px. bounds. unfold renderText, text_shown. cbv zeta.
  step. step. step. step.
  unfold ret. f_equal. heap_eq container (length d).
Qed.

(** ** A first child that is no element *)

Lemma element_at_not (d : Dom.t) n x :
  d !! n = Some x -> is_element x = false ->
  element_at n d = Throw (TypeError "not an element") d.
Proof.
  intros H E. unfold element_at.
  rewrite (bind_Ok _ _ _ _ _ (node_at_Ok _ _ _ H)), E. reflexivity.
Qed.

(** X2.  When the first child of the slot before is no element (a text
    node, say), [renderStream] throws a [TypeError] to its caller: it
    calls [getAttribute] on that child.  The document is as it was. *)
Theorem renderStream_first_child_no_element outputInfo container error (d : Dom.t)
    outputContainer prev c cx :
  parentElement_of d container = Some outputContainer ->
  previousSibling_of d outputContainer = Some prev ->
  firstChild_of d prev = Some c ->
  d !! c = Some cx -> is_element cx = false ->
  renderStream outputInfo container error d = Throw (TypeError "not an element") d.
Proof.
  intros Hparent Hprev Hfirst Hc Ec.
  unfold renderStream. cbv zeta.
  step. rewrite Hparent. step. rewrite Hprev. step. rewrite Hfirst.
  unfold getAttribute, bind.
  now rewrite (element_at_not _ _ _ Hc Ec).
Qed.

(** ** Renders and the resources *)

(** X3.  No render calls a disposer: after any sequence of renders,
    whatever their payloads and whether they returned or threw, the log of
    disposer calls is the one from before. *)
Theorem renders_never_dispose cs w :
  forallb is_render cs = true ->
  revoked (host_calls cs w) = revoked w.
Proof.
  revert w. induction cs as [| c cs IH]; intros w Hcs; [reflexivity |].
  cbn [forallb] in Hcs. apply andb_prop in Hcs as [Hc Hcs].
  cbn [host_calls fold_left].
  fold (host_calls cs (host_call c w)). rewrite (IH _ Hcs).
  destruct c as [outputInfo element | id]; [| discriminate].
  apply render_resources.
Qed.

Lemma get_Some_In {V} k (v : V) m : Table.get k m = Some v -> In (k, v) m.
Proof.
  induction m as [| [k' v'] m IH]; cbn; [discriminate |].
  destruct (String.eqb_spec k' k) as [-> | N].
  - intros [= ->]. now left.
  - intros H. right. auto.
Qed.

Lemma image_rows k : In (k, Image) dispatch_table -> In k image_mimes.
Proof.
  unfold dispatch_table, image_mimes. cbn [In]. intros H.
  repeat (destruct H as [H | H]; [inversion H; subst; tauto |]).
  contradiction.
Qed.

(** X4.  Only image payloads hand out object URLs or touch the registry:
    a render of any other mime leaves object URLs, the log of disposer
    calls and the registry as they were, also where it throws. *)
Theorem only_images_touch_resources outputInfo element w :
  ~ In (OutputItem.mime outputInfo) image_mimes ->
  same_resources w (world_of (renderOutputItem outputInfo element w)).
Proof.
  intros Hmime. rewrite renderOutputItem_by_table.
  destruct (Table.get (OutputItem.mime outputInfo) dispatch_table)
    as [[| | | | isError |] |] eqn:Hrow; cbn [run_strategy].
  - destruct (isTrusted w); [apply keeps_dom | apply same_resources_refl].
  - destruct (isTrusted w); [apply keeps_dom | apply same_resources_refl].
  - exfalso. apply Hmime, image_rows. now apply get_Some_In.
  - apply keeps_renderError.
  - apply keeps_dom.
  - apply keeps_dom.
  - apply same_resources_refl.
Qed.

(** ** The registry in every world the host can reach *)

Lemma NoDup_values_set k u (m : Table.t IDisposable) :
  NoDup (map src_of (Table.values m)) ->
  Forall (fun d => src_of d <> u) (Table.values m) ->
  NoDup (map src_of (Table.values (Table.set k (RevokeOnDispose u) m))).
Proof.
  unfold Table.values.
  induction m as [| [k' d] m IH]; cbn [Table.set map snd src_of]; intros Hnd Hu.
  - apply NoDup_singleton.
  - apply NoDup_cons in Hnd as [Hd Hnd].
    apply Forall_cons_1 in Hu as [Hdu Hu].
    destruct (String.eqb k' k); cbn [map snd src_of]; apply NoDup_cons.
    + split; [| exact Hnd].
      intros Hin. apply list_elem_of_In, in_map_iff in Hin as (d' & Hd' & Hin).
      rewrite Forall_forall in Hu. apply (Hu d'); [now apply list_elem_of_In | exact Hd'].
    + split; [| now apply IH].
      intros Hin. apply list_elem_of_In, in_map_iff in Hin as (d' & Hd' & Hin).
      assert (Hall : Forall (fun e => src_of e <> src_of d)
                (map snd (Table.set k (RevokeOnDispose u) m))).
      { apply (TableFacts.Forall_values_set (fun e => src_of e <> src_of d));
          [| cbn; congruence].
        rewrite Forall_forall. intros e He Heq. apply Hd.
        apply list_elem_of_In, in_map_iff. exists e. split; [exact Heq |].
        now apply list_elem_of_In. }
      rewrite Forall_forall in Hall.
      apply (Hall d'); [now apply list_elem_of_In | exact Hd'].
Qed.

Lemma registry_sound_host_call c w :
  registry_issued w /\ registry_distinct w ->
  registry_issued (host_call c w) /\ registry_distinct (host_call c w).
Proof.
  intros [Hiss Hdis]. split; [now apply registry_issued_host_call |].
  unfold registry_distinct in *.
  destruct c as [outputInfo element | id]; cbn [host_call].
  - destruct (render_resources outputInfo element w)
      as (_ & _ & Hd).
    cbv zeta in Hd. destruct Hd as [-> | [-> _]]; [exact Hdis |].
    apply NoDup_values_set; [exact Hdis |].
    now apply registry_issued_forgets.
  - now rewrite disposeOutputItem_Ok.
Qed.

(** X5.  In every world the host can reach from [activate] by renders
    and disposals, each disposer in the registry releases an object URL
    that has been handed out, and no two entries release the same one. *)
Theorem registry_sound_after_calls cs w :
  let w' := host_calls cs (world_of (activate w)) in
  registry_issued w' /\ registry_distinct w'.
Proof.
  cbv zeta.
  assert (H0 : registry_issued (world_of (activate w)) /\
               registry_distinct (world_of (activate w))).
  { split; [apply registry_issued_activate | apply NoDup_nil_2]. }
  revert H0. generalize (world_of (activate w)) as w0.
  induction cs as [| c cs IH]; intros w0 H0; [exact H0 |].
  cbn [host_calls fold_left].
  apply (IH (host_call c w0)). now apply registry_sound_host_call.
Qed.

Lemma count_occ_NoDup_In (l : list nat) u :
  NoDup l -> In u l -> count_occ Nat.eq_dec l u = 1.
Proof.
  intros Hnd Hin. apply NoDup_ListNoDup in Hnd.
  pose proof (proj1 (List.NoDup_count_occ Nat.eq_dec l) Hnd u).
  apply (count_occ_In Nat.eq_dec) in Hin.
  lia.
Qed.

(** X6.  Where no two entries release the same object URL, a disposal
    without id, or with the empty string as id, calls the disposer of
    every entry exactly once. *)
Theorem bulk_dispose_calls_each_once id d w :
  present id = false ->
  registry_distinct w ->
  In d (Table.values (disposables w)) ->
  calls_of (src_of d) (world_of (disposeOutputItem id w)) =
  S (calls_of (src_of d) w).
Proof.
  intros Hid Hdis Hin. rewrite disposeOutputItem_Ok.
  unfold calls_of, reached. rewrite Hid. cbn [world_of revoked with_revoked].
  rewrite count_occ_app, (count_occ_NoDup_In (map src_of _)); [lia | exact Hdis |].
  now apply in_map.
Qed.

(** X7.  Disposing a non-empty id that the registry does not hold changes
    nothing. *)
Theorem dispose_unknown_id id w :
  id <> "" -> Table.get id (disposables w) = None ->
  disposeOutputItem (Some id) w = Ok tt w.
Proof.
  intros Hid Hnone. rewrite disposeOutputItem_Ok. unfold reached.
  cbn [present]. change (default "" (Some id)) with id.
  rewrite (proj2 (String.eqb_neq _ _) Hid). cbn [negb]. rewrite Hnone.
  cbn [map]. rewrite app_nil_r. now destruct w.
Qed.

(** ** Script revival, any number of scripts *)

Lemma revive_one container node (d : Dom.t) x old :
  inert runScript ->
  d !! container = Some x -> is_parent x = true ->
  Forall (fun i => i < length d) (childNodes x) ->
  d !! node = Some old -> is_element old = true ->
  revive container node d = Ok tt (d ++ [revived old]).
Proof.
  intros Hquiet Hx Px Hkids Hold Eold. bounds.
  rewrite (revive_runs container node d x old Hx Px Hold Eold), Hquiet.
  rewrite (take_out_attached (length d) container
             (with_parentNode (Some container) (revived old)) (grown [length d] x)).
  - now rewrite taken_out_inserted.
  - unfold script_inserted. lk.
  - reflexivity.
  - unfold script_inserted, grown. lk.
  - lia.
Qed.

Lemma revive_all_from container nodes olds (d : Dom.t) x :
  inert runScript ->
  is_parent x = true ->
  Forall2 (fun node old => d !! node = Some old /\ is_element old = true) nodes olds ->
  forall d' : Dom.t,
    d `prefix_of` d' -> d' !! container = Some x ->
    Forall (fun i => i < length d') (childNodes x) ->
    for_of nodes (revive container) d' = Ok tt (d' ++ map revived olds).
Proof.
  intros Hquiet Px Hall.
  induction Hall as [| node old nodes olds [Hold Eold] Hall IH]; intros d' Hpre Hx Hkids.
  - cbn. now rewrite app_nil_r.
  - cbn [for_of map].
    assert (Hold' : d' !! node = Some old)
      by (eapply prefix_lookup_Some; eassumption).
    rewrite (bind_Ok _ _ _ _ _ (revive_one _ _ _ _ _ Hquiet Hx Px Hkids Hold' Eold)).
    replace (d' ++ revived old :: map revived olds)
      with ((d' ++ [revived old]) ++ map revived olds)
      by (now rewrite <- app_assoc).
    apply IH.
    + etransitivity; [exact Hpre | now apply prefix_app_r].
    + now apply lookup_app_l_Some.
    + eapply Forall_impl; [exact Hkids |]. cbn. intros i. rewrite length_app. lia.
Qed.

Lemma tagged_nodes (d : Dom.t) tag nodes :
  Forall (fun i => tagged d tag i = true) nodes ->
  exists olds,
    Forall2 (fun node old => d !! node = Some old /\ has_tag tag old = true) nodes olds.
Proof.
  induction 1 as [| node nodes Htag _ (olds & IH)]; [exists []; constructor |].
  unfold tagged in Htag. destruct (d !! node) as [old |] eqn:Hold; [| discriminate].
  exists (old :: olds). constructor; auto.
Qed.

Lemma domEval_all container (d : Dom.t) x :
  inert runScript ->
  d !! container = Some x -> is_parent x = true ->
  Forall (fun i => i < length d) (childNodes x) ->
  exists olds,
    Forall2 (fun node old => d !! node = Some old /\ has_tag "script" old = true)
      (getElementsByTagName_of d container "script") olds /\
    domEval container d = Ok tt (d ++ map revived olds).
Proof.
  intros Hquiet Hx Px Hkids.
  destruct (tagged_nodes d "script" (getElementsByTagName_of d container "script"))
    as (olds & Holds).
  { unfold getElementsByTagName_of. apply Forall_forall. intros i Hi.
    apply list_elem_of_In, filter_In in Hi. tauto. }
  exists olds. split; [exact Holds |].
  rewrite domEval_unfold. step.
  apply (revive_all_from container _ olds d x Hquiet Px); auto.
  eapply Forall2_impl; [exact Holds |].
  cbn. intros node old [Hold Htag]. split; [exact Hold |].
  now apply (has_tag_element "script").
Qed.


(** ** What the new script node carries *)




(** X9.  Where the scripts that run leave the document as it is: for a
    container with one script element and each name on the allow-list,
    the script node that [domEval] leaves behind has the attribute of
    that name, lower-cased, exactly when [node[key] ||
    node.getAttribute(key)] is truthy on the old node, and its value is
    that value as a string.  [getAttribute] looks the name up lower-cased
    on an old node of the HTML namespace and as it is on any other. *)
Theorem domEval_copies_attribute container (d : Dom.t) x node key :
  inert runScript ->
  d !! container = Some x -> is_parent x = true ->
  Forall (fun i => i < length d) (childNodes x) ->
  getElementsByTagName_of d container "script" = [node] ->
  In key preservedScriptAttributes ->
  exists old new (d' : Dom.t),
    d !! node = Some old /\
    domEval container d = Ok tt d' /\
    d' !! length d = Some new /\
    Table.get (toLowerCase key) (attributes new) =
      let val := or_else (prop_of old key)
                   (of_option (Table.get (qualified old key) (attributes old))) in
      if truthy val then Some (toString val) else None.
Proof.
  intros Hquiet Hx Px Hkids Hone Hkey.
  destruct (only_script_is_there _ _ _ Hone) as (old & Hold & Htag).
  pose proof (has_tag_element _ _ Htag) as Eold.
  exists old, (revived old), (d ++ [revived old]).
  split; [exact Hold |]. split.
  { rewrite domEval_unfold. unfold bind at 1, getElementsByTagName.
    rewrite Hone, for_of_one. now apply (revive_one container node d x old). }
  split; [now apply lookup_snoc_at |].
  cbv zeta. fold (preserved_value old key).
  unfold revived, preservedScriptAttributes in *. cbn [attributes fold_left In] in *.
  unfold copy_attribute.
  repeat (destruct Hkey as [<- | Hkey]; [ | ]); try contradiction.
  all: destruct (truthy (preserved_value old "type")),
                (truthy (preserved_value old "src")),
                (truthy (preserved_value old "nonce")),
                (truthy (preserved_value old "noModule")),
                (truthy (preserved_value old "async")); reflexivity.
Qed.

(** ** Markup put under an element *)

Lemma HtmlTree_induction (P : HtmlTree -> Prop) :
  (forall ty attrs ps children, Forall P children -> P (HNode ty attrs ps children)) ->
  forall tr, P tr.
Proof.
  intros H. fix IH 1. intros [ty attrs ps children]. apply H.
  revert children. fix IHchildren 1. intros [| c children].
  - constructor.
  - constructor; [apply IH | apply IHchildren].
Qed.

Lemma prefix_insert_beyond (d d' : Dom.t) i y :
  d `prefix_of` d' -> length d <= i -> d `prefix_of` <[i := y]> d'.
Proof.
  intros [k ->] Hi. rewrite insert_app_r_alt by exact Hi. now apply prefix_app_r.
Qed.

Lemma prefix_set_children (d d' : Dom.t) n ids :
  d `prefix_of` d' -> length d <= n -> d `prefix_of` set_children n ids d'.
Proof.
  intros Hpre Hn. unfold set_children.
  destruct (d' !! n); [now apply prefix_insert_beyond | exact Hpre].
Qed.

Lemma length_set_children (d : Dom.t) n ids : length (set_children n ids d) = length d.
Proof. unfold set_children. destruct (d !! n); [apply length_insert | reflexivity]. Qed.

Lemma insertTree_unfold parent ty attrs ps children (d : Dom.t) :
  insertTree parent (HNode ty attrs ps children) d =
  let me := length d in
  let '(ids, d2) :=
    insertForest me children (d ++ [mkNode ty attrs [] [] ps (Some parent) []]) in
  (me, set_children me ids d2).
Proof.
  cbn [insertTree]. cbv zeta.
  generalize (d ++ [mkNode ty attrs [] [] ps (Some parent) []]) as d1.
  generalize (length d) as me. intros me.
  assert (Hsame : forall cs d1,
    (fix insertAll (cs : list HtmlTree) (d0 : Dom.t) {struct cs} : list nid * Dom.t :=
       match cs with
       | [] => ([], d0)
       | c :: r =>
           let '(i, d') := insertTree me c d0 in
           let '(js, d'') := insertAll r d' in (i :: js, d'')
       end) cs d1 = insertForest me cs d1).
  { induction cs as [| c cs IHcs]; intros d1; [reflexivity |].
    cbn [insertForest]. destruct (insertTree me c d1) as [i d']. now rewrite IHcs. }
  intros d1. now rewrite Hsame.
Qed.

(** Putting trees into a document gives them the next free places and
    leaves every node that was there as it was. *)
Lemma insertForest_extends parent cs (d : Dom.t) :
  d `prefix_of` (insertForest parent cs d).2 /\
  Forall (fun i => i < length (insertForest parent cs d).2) (insertForest parent cs d).1.
Proof.
  assert (Htree : forall tr parent (d : Dom.t),
            (insertTree parent tr d).1 = length d /\
            d `prefix_of` (insertTree parent tr d).2 /\
            length d < length (insertTree parent tr d).2).
  { induction tr as [ty attrs ps children IH] using HtmlTree_induction.
    intros p d0. rewrite insertTree_unfold. cbv zeta.
    set (d1 := d0 ++ [mkNode ty attrs [] [] ps (Some p) []]).
    assert (Hforest : d1 `prefix_of` (insertForest (length d0) children d1).2).
    { generalize (length d0) as me. generalize d1 as d2. clear d1.
      induction IH as [| c rest Hc _ IHrest]; intros d2 me; [reflexivity |].
      cbn [insertForest].
      destruct (Hc me d2) as (_ & Hpre & _).
      destruct (insertTree me c d2) as [i d3]. cbn [snd] in Hpre.
      specialize (IHrest d3 me).
      destruct (insertForest me rest d3) as [js d4]. cbn [snd] in *.
      now transitivity d3. }
    destruct (insertForest (length d0) children d1) as [ids d2]. cbn [fst snd] in *.
    assert (Hd0 : d0 `prefix_of` d2).
    { transitivity d1; [now apply prefix_app_r | exact Hforest]. }
    split; [reflexivity |]. split.
    - now apply prefix_set_children.
    - rewrite length_set_children.
      apply prefix_length in Hforest. unfold d1 in Hforest.
      rewrite length_app in Hforest. cbn in Hforest. lia. }
  revert d. induction cs as [| c cs IH]; intros d; cbn [insertForest].
  - split; [reflexivity | constructor].
  - destruct (Htree c parent d) as (Hi & Hpre & Hlt).
    destruct (insertTree parent c d) as [i d1]. cbn [fst snd] in *.
    destruct (IH d1) as [Hpre' Hids].
    destruct (insertForest parent cs d1) as [js d2]. cbn [fst snd] in *.
    split; [now transitivity d1 |].
    constructor; [| exact Hids].
    apply prefix_length in Hpre'. lia.
Qed.

(** X10.  Where the scripts that run leave the document as it is:
    whatever the number of script elements under the container,
    [domEval] returns normally, leaves every node of the document as it
    was and adds one detached script node for each script element found,
    in document order; with no script element the document is unchanged. *)
Theorem domEval_revives_all container (d : Dom.t) x :
  inert runScript ->
  d !! container = Some x -> is_parent x = true ->
  Forall (fun i => i < length d) (childNodes x) ->
  exists olds,
    Forall2 (fun node old => d !! node = Some old /\ has_tag "script" old = true)
      (getElementsByTagName_of d container "script") olds /\
    domEval container d = Ok tt (d ++ map revived olds) /\
    (getElementsByTagName_of d container "script" = [] ->
     domEval container d = Ok tt d).
Proof.
  intros Hquiet Hx Px Hkids.
  destruct (domEval_all container d x Hquiet Hx Px Hkids) as (olds & Holds & Hrun).
  exists olds. split; [exact Holds |]. split; [exact Hrun |].
  intros Hnone. rewrite Hnone in Holds. inversion Holds; subst.
  rewrite Hrun. cbn [map]. now rewrite app_nil_r.
Qed.

Lemma inject_Ok forest container (d : Dom.t) x :
  inert runScript ->
  d !! container = Some x -> is_parent x = true ->
  exists d' : Dom.t,
    inject forest container d = Ok tt d' /\
    d' !! container = Some (grown [length d] x) /\
    (forall i y, i <> container -> d !! i = Some y -> d' !! i = Some y) /\
    exists y, d' !! length d = Some y /\
              nodeType y = ElementNode "div" /\ parentNode y = Some container.
Proof.
  intros Hquiet Hx Px. bounds. unfold inject.
  step. unfold set_innerHTML.
  rewrite ?bind_bind.
  erewrite bind_Ok; [ | eapply element_at_Ok; [lk | reflexivity] ].
  cbn [childNodes fresh for_of].
  unfold bind at 1, ret at 1. unfold bind at 1.
  pose proof (insertForest_extends (length d) forest (d ++ [fresh (ElementNode "div")]))
    as [Hpre Hids].
  destruct (insertForest (length d) forest (d ++ [fresh (ElementNode "div")]))
    as [ids d2]. cbn [fst snd] in Hpre, Hids.
  assert (Hlen : S (length d) <= length d2).
  { apply prefix_length in Hpre. now rewrite length_snoc in Hpre. }
  assert (Hold : forall i y, d !! i = Some y -> d2 !! i = Some y).
  { intros i y Hi. eapply prefix_lookup_Some; [| exact Hpre].
    now apply lookup_app_l_Some. }
  assert (Hnew : d2 !! length d = Some (fresh (ElementNode "div"))).
  { eapply prefix_lookup_Some; [| exact Hpre]. now apply lookup_snoc_at. }
  unfold set_children. rewrite Hnew.
  set (d3 := <[length d := with_childNodes ids (fresh (ElementNode "div"))]> d2).
  assert (H3c : d3 !! container = Some x).
  { unfold d3. rewrite list_lookup_insert_ne by lia. now apply Hold. }
  assert (H3n : d3 !! length d = Some (with_childNodes ids (fresh (ElementNode "div")))).
  { unfold d3. apply list_lookup_insert_eq. lia. }
  assert (Hne : container <> length d) by lia.
  rewrite (bind_Ok _ _ _ _ _
             (appendChild_orphan _ _ _ _ _ H3c Px H3n eq_refl Hne)).
  set (d4 := <[length d := _]> (<[container := _]> d3)).
  assert (Hlen4 : length d4 = length d2).
  { unfold d4, d3. now rewrite !length_insert. }
  assert (H4n : d4 !! length d =
                Some (with_parentNode (Some container)
                        (with_childNodes ids (fresh (ElementNode "div"))))).
  { unfold d4. apply list_lookup_insert_eq. rewrite length_insert.
    unfold d3. rewrite length_insert. lia. }
  destruct (domEval_all (length d) d4 _ Hquiet H4n eq_refl) as (olds & _ & Hrun).
  { cbn [childNodes with_parentNode with_childNodes]. now rewrite Hlen4. }
  exists (d4 ++ map revived olds). split; [exact Hrun |].
  assert (H4c : d4 !! container = Some (grown [length d] x)).
  { unfold d4. rewrite list_lookup_insert_ne by lia.
    apply list_lookup_insert_eq. unfold d3. rewrite length_insert. lia. }
  split; [now apply lookup_app_l_Some |]. split.
  - intros i y Hi Hy. apply lookup_app_l_Some.
    pose proof (lookup_lt_Some _ _ _ Hy).
    unfold d4. rewrite !list_lookup_insert_ne by lia.
    unfold d3. rewrite list_lookup_insert_ne by lia. now apply Hold.
  - eexists. split; [apply lookup_app_l_Some; exact H4n |]. split; reflexivity.
Qed.

Lemma renderHTML_inject outputInfo container :
  renderHTML outputInfo container =
  inject (parseFragment (OutputItem.text outputInfo)) container.
Proof. unfold renderHTML, inject, ttPolicy. now destruct trustedTypes. Qed.

Lemma renderJavascript_inject outputInfo container :
  renderJavascript outputInfo container =
  inject
    (parseFragment (script_markup (OutputItem.text outputInfo))) container.
Proof. unfold renderJavascript, inject, ttPolicy. now destruct trustedTypes. Qed.

(** X11.  Where the scripts that run leave the document as it is:
    whatever the markup parses to, [renderHTML] returns normally and
    appends exactly one child to the surface, a [div]; every other node
    that was in the document is left as it was. *)
Theorem renderHTML_appends_one_div outputInfo container (d : Dom.t) x :
  inert runScript ->
  d !! container = Some x -> is_parent x = true ->
  exists d' : Dom.t,
    renderHTML outputInfo container d = Ok tt d' /\
    d' !! container = Some (grown [length d] x) /\
    (forall i y, i <> container -> d !! i = Some y -> d' !! i = Some y) /\
    exists y, d' !! length d = Some y /\
              nodeType y = ElementNode "div" /\ parentNode y = Some container.
Proof.
  intros Hquiet Hx Px. rewrite renderHTML_inject. now apply inject_Ok.
Qed.

(** X12.  [renderJavascript] is [renderHTML] of the payload's text
    wrapped in a script tag of type application/javascript, whatever
    the scripts do; where the scripts that run leave the document as it
    is, it returns normally, appends one child to the surface and leaves
    every other node that was in the document as it was. *)
Theorem renderJavascript_as_markup outputInfo container (d : Dom.t) x :
  d !! container = Some x -> is_parent x = true ->
  renderJavascript outputInfo container d =
    renderHTML
      (OutputItem.mk (OutputItem.id outputInfo) (OutputItem.mime outputInfo)
         (OutputItem.data outputInfo) (script_markup (OutputItem.text outputInfo)))
      container d /\
  (inert runScript ->
   exists d' : Dom.t,
     renderJavascript outputInfo container d = Ok tt d' /\
     d' !! container = Some (grown [length d] x) /\
     (forall i y, i <> container -> d !! i = Some y -> d' !! i = Some y)).
Proof.
  intros Hx Px. rewrite renderJavascript_inject, renderHTML_inject.
  split; [reflexivity |]. intros Hquiet.
  destruct (inject_Ok (parseFragment (script_markup (OutputItem.text outputInfo)))
              container d x Hquiet Hx Px) as (d' & Hrun & Hc & Hframe & _).
  exists d'. auto.
Qed.

(** ** Chunks of a stream, one after the other *)

Lemma renderStream_continues outputInfo container error (d : Dom.t)
    outputContainer prev c cx :
  parentElement_of d container = Some outputContainer ->
  previousSibling_of d outputContainer = Some prev ->
  firstChild_of d prev = Some c ->
  d !! c = Some cx -> is_element cx = true ->
  Table.get marker (attributes cx) = Some (OutputItem.mime outputInfo) ->
  renderStream outputInfo container error d =
  Ok tt (stream_appended outputInfo c cx d).
Proof.
  intros Hparent Hprev Hfirst Hc Ec Hmark. bounds.
  unfold renderStream, stream_appended. cbv zeta.
  step. rewrite Hparent. step. rewrite Hprev. step. rewrite Hfirst.
  step. rewrite qualified_marker, Hmark.
  rewrite bool_decide_eq_true_2 by reflexivity.
  step. step. step.
  unfold ret. f_equal. heap_eq c (length d).
Qed.

Lemma renderStream_first outputInfo container error (d : Dom.t) outputContainer x :
  parentElement_of d container = Some outputContainer ->
  previousSibling_of d outputContainer = None ->
  d !! container = Some x -> is_element x = true ->
  renderStream outputInfo container error d =
  Ok tt (stream_block outputInfo error container x d).
Proof.
  intros Hparent Hprev Hx Ex. unfold renderStream. cbv zeta.
  step. rewrite Hparent. step. rewrite Hprev.
  now apply renderStream_new_block.
Qed.

Lemma renderStream_other_mark outputInfo container error (d : Dom.t)
    outputContainer prev c cx x :
  parentElement_of d container = Some outputContainer ->
  previousSibling_of d outputContainer = Some prev ->
  firstChild_of d prev = Some c ->
  d !! c = Some cx -> is_element cx = true ->
  Table.get marker (attributes cx) <> Some (OutputItem.mime outputInfo) ->
  d !! container = Some x -> is_element x = true ->
  renderStream outputInfo container error d =
  Ok tt (stream_block outputInfo error container x d).
Proof.
  intros Hparent Hprev Hfirst Hc Ec Hmark Hx Ex. unfold renderStream. cbv zeta.
  step. rewrite Hparent. step. rewrite Hprev. step. rewrite Hfirst.
  step. rewrite qualified_marker.
  rewrite bool_decide_eq_false_2 by assumption.
  now apply renderStream_new_block.
Qed.

Lemma stream_block_agrees outputInfo error e x (d : Dom.t) :
  agrees_off e d (stream_block outputInfo error e x d).
Proof.
  intros i y Hi Hy. bounds. unfold stream_block. cbv zeta. now look.
Qed.

Lemma stream_appended_agrees outputInfo c cx (d : Dom.t) :
  agrees_off c d (stream_appended outputInfo c cx d).
Proof.
  intros i y Hi Hy. bounds. unfold stream_appended. cbv zeta. now look.
Qed.

Lemma parentElement_stable e (d d' : Dom.t) n s :
  agrees_off e d d' -> parentElement_of d n = Some s -> n <> e -> s <> e ->
  parentElement_of d' n = Some s.
Proof.
  intros Hag H Hn Hs. unfold parentElement_of in *.
  destruct (d !! n) as [xn |] eqn:En; [| discriminate].
  destruct (parentNode xn) as [p |] eqn:Ep; [| discriminate].
  destruct (d !! p) as [px |] eqn:Epx; [| discriminate].
  destruct (is_element px) eqn:Eel; [| discriminate].
  injection H as ->.
  now rewrite (Hag _ _ Hn En), Ep, (Hag _ _ Hs Epx), Eel.
Qed.

Lemma previousSibling_stable e (d d' : Dom.t) n s :
  agrees_off e d d' -> previousSibling_of d n = Some s -> n <> e ->
  (forall y, d !! n = Some y -> parentNode y <> Some e) ->
  previousSibling_of d' n = Some s.
Proof.
  intros Hag H Hn Hp. unfold previousSibling_of in *.
  destruct (d !! n) as [xn |] eqn:En; [| discriminate].
  destruct (parentNode xn) as [p |] eqn:Ep; [| discriminate].
  destruct (d !! p) as [px |] eqn:Epx; [| discriminate].
  assert (Hpe : p <> e) by (intros ->; now apply (Hp _ eq_refl)).
  now rewrite (Hag _ _ Hn En), Ep, (Hag _ _ Hpe Epx).
Qed.

Lemma firstChild_stable e (d d' : Dom.t) n c :
  agrees_off e d d' -> firstChild_of d n = Some c -> n <> e ->
  firstChild_of d' n = Some c.
Proof.
  intros Hag H Hn. unfold firstChild_of in *.
  destruct (d !! n) as [xn |] eqn:En; [| discriminate].
  now rewrite (Hag _ _ Hn En).
Qed.

(** X13.  Two chunks of one stream rendered back to back into the first
    two slots of a cell: the first makes its surface the block of the
    stream, and the second puts its text into that block. *)
Theorem two_chunks_coalesce outputInfo1 outputInfo2 error1 error2
    (d : Dom.t) surface1 surface2 slot1 slot2 x1 :
  parentElement_of d surface1 = Some slot1 ->
  previousSibling_of d slot1 = None ->
  d !! surface1 = Some x1 -> is_element x1 = true ->
  parentElement_of d surface2 = Some slot2 ->
  previousSibling_of d slot2 = Some slot1 ->
  firstChild_of d slot1 = Some surface1 ->
  surface2 <> surface1 -> slot2 <> surface1 -> slot1 <> surface1 ->
  (forall y, d !! slot2 = Some y -> parentNode y <> Some surface1) ->
  OutputItem.mime outputInfo2 = OutputItem.mime outputInfo1 ->
  (renderStream outputInfo1 surface1 error1 ;;
   renderStream outputInfo2 surface2 error2) d =
  Ok tt (stream_appended outputInfo2 surface1
           (tagged_block (OutputItem.mime outputInfo1) error1 (length d) x1)
           (stream_block outputInfo1 error1 surface1 x1 d)).
Proof.
  intros Hp1 Hfirst Hx1 Ex1 Hp2 Hprev Hchild N1 N2 N3 N4 Hmime.
  rewrite (bind_Ok _ _ _ _ _ (renderStream_first _ _ error1 _ _ _ Hp1 Hfirst Hx1 Ex1)).
  pose proof (stream_block_agrees outputInfo1 error1 surface1 x1 d) as Hag.
  apply (renderStream_continues _ _ _ _ slot2 slot1).
  - now apply (parentElement_stable surface1 d).
  - now apply (previousSibling_stable surface1 d).
  - now apply (firstChild_stable surface1 d).
  - bounds. unfold stream_block. cbv zeta. now look.
  - cbn. now destruct error1.
  - cbn [tagged_block attributes with_classList with_attributes].
    rewrite TableFacts.get_set_eq. now rewrite Hmime.
Qed.

(** X14.  A chunk that went into the block of an earlier slot leaves its
    own surface without the mark of its mime; the chunk rendered into the
    next slot looks at that surface and so starts a new block, whatever
    its mime. *)
Theorem third_chunk_starts_anew outputInfo2 outputInfo3 error2 error3
    (d : Dom.t) block cx surface2 surface3 slot1 slot2 slot3 x2 x3 :
  parentElement_of d surface2 = Some slot2 ->
  previousSibling_of d slot2 = Some slot1 ->
  firstChild_of d slot1 = Some block ->
  d !! block = Some cx -> is_element cx = true ->
  Table.get marker (attributes cx) = Some (OutputItem.mime outputInfo2) ->
  d !! surface2 = Some x2 -> is_element x2 = true ->
  Table.get marker (attributes x2) <> Some (OutputItem.mime outputInfo3) ->
  parentElement_of d surface3 = Some slot3 ->
  previousSibling_of d slot3 = Some slot2 ->
  firstChild_of d slot2 = Some surface2 ->
  d !! surface3 = Some x3 -> is_element x3 = true ->
  surface2 <> block -> surface3 <> block -> slot2 <> block -> slot3 <> block ->
  (forall y, d !! slot3 = Some y -> parentNode y <> Some block) ->
  (renderStream outputInfo2 surface2 error2 ;;
   renderStream outputInfo3 surface3 error3) d =
  Ok tt (stream_block outputInfo3 error3 surface3 x3
           (stream_appended outputInfo2 block cx d)).
Proof.
  intros Hp2 Hprev2 Hchild1 Hc Ec Hmark Hx2 Ex2 Hmark2 Hp3 Hprev3 Hchild2 Hx3 Ex3
         N1 N2 N3 N4 N5.
  rewrite (bind_Ok _ _ _ _ _
             (renderStream_continues _ _ error2 _ _ _ _ _ Hp2 Hprev2 Hchild1 Hc Ec Hmark)).
  pose proof (stream_appended_agrees outputInfo2 block cx d) as Hag.
  apply (renderStream_other_mark _ _ _ _ slot3 slot2 surface2 x2).
  - now apply (parentElement_stable block d).
  - now apply (previousSibling_stable block d).
  - now apply (firstChild_stable block d).
  - now apply Hag.
  - exact Ex2.
  - exact Hmark2.
  - now apply Hag.
  - exact Ex3.
Qed.

(** ** A structured error that decodes to null *)

(** X15.  An error payload whose text decodes to [null] makes
    [renderOutputItem] throw a [TypeError] to the host, with an empty
    [div] appended to the surface and nothing logged. *)
Theorem error_payload_null_throws outputInfo element w x :
  OutputItem.mime outputInfo = "application/vnd.code.notebook.error" ->
  JSON_parse (OutputItem.text outputInfo) = ParsedNull ->
  document w !! element = Some x -> is_parent x = true ->
  renderOutputItem outputInfo element w =
  Throw (TypeError "Cannot read properties of null")
    (with_document
       (<[element := grown [length (document w)] x]> (document w)
        ++ [placeholder element]) w).
Proof.
  intros Hmime Hparse Hx Px.
  rewrite renderOutputItem_by_table, Hmime. cbn [Table.get dispatch_table].
  cbn [run_strategy].
  now apply renderError_null.
Qed.

End Properties.

(** * The statements at sample inputs *)

Module Examples.
Import Dom Markup.

(** C9 at a surface that stands alone. *)
Lemma renderStream_without_parent_witness :
  parentElement_of Sample.lone 0 = None /\
  renderStream Sample.stdout 0 false Sample.lone = Ok tt Sample.lone.
Proof.
  split; [reflexivity |].
  apply renderStream_without_parent. reflexivity.
Defined.

(** C1 at an HTML payload, in an untrusted and in a trusted world. *)
Lemma trust_gate_witness :
  In (OutputItem.mime Sample.html)
     ["text/html"; "image/svg+xml"; "application/javascript"] /\
  renderOutputItem true Sample.no_markup Sample.JSON_parse Sample.quiet Sample.html 0 Sample.lone_world =
    Ok tt Sample.lone_world /\
  renderOutputItem true Sample.no_markup Sample.JSON_parse Sample.quiet Sample.html 0 Sample.trusted_world =
    dom (renderHTML true Sample.no_markup Sample.quiet Sample.html 0) Sample.trusted_world.
Proof.
  assert (Hin : In (OutputItem.mime Sample.html)
                  ["text/html"; "image/svg+xml"; "application/javascript"])
    by (left; reflexivity).
  split; [exact Hin |]. split.
  - apply (trust_gate true Sample.no_markup Sample.JSON_parse Sample.quiet Sample.html 0
             Sample.lone_world Hin).
    reflexivity.
  - apply (trust_gate true Sample.no_markup Sample.JSON_parse Sample.quiet Sample.html 0
             Sample.trusted_world Hin).
    reflexivity.
Defined.

(** C6 at the row of the stream alias and at a mime that heads no row. *)
Lemma dispatch_follows_table_witness :
  In ("application/x.notebook.stream", Stream false) dispatch_table /\
  renderOutputItem true Sample.no_markup Sample.JSON_parse Sample.quiet
    (OutputItem.mk "out-6" "application/x.notebook.stream" [] "tick") 4
    (Sample.world_of_document Sample.two_slots) =
  run_strategy true Sample.no_markup Sample.JSON_parse Sample.quiet (Stream false)
    (OutputItem.mk "out-6" "application/x.notebook.stream" [] "tick") 4
    (Sample.world_of_document Sample.two_slots) /\
  renderOutputItem true Sample.no_markup Sample.JSON_parse Sample.quiet
    (OutputItem.mk "out-7" "application/pdf" [] "") 0 Sample.lone_world =
  Ok tt Sample.lone_world.
Proof.
  assert (Hrow : In ("application/x.notebook.stream", Stream false) dispatch_table).
  { unfold dispatch_table. do 10 right. left. reflexivity. }
  split; [exact Hrow |]. split.
  - apply (dispatch_follows_table true Sample.no_markup Sample.JSON_parse Sample.quiet
             (OutputItem.mk "out-6" "application/x.notebook.stream" [] "tick")).
    exact Hrow.
  - apply (dispatch_follows_table true Sample.no_markup Sample.JSON_parse Sample.quiet
             (OutputItem.mk "out-7" "application/pdf" [] "")).
    cbn. intuition discriminate.
Defined.

(** C2 fails as stated: with one disposer registered, two calls for its
    id call it twice, and a bulk call leaves the entry where it was, so
    that a second bulk call calls the disposer again. *)
Lemma dispose_twice_calls_twice :
  calls_of 0 (world_of ((disposeOutputItem (Some "out-1") ;;
                         disposeOutputItem (Some "out-1")) Sample.one_image)) = 2 /\
  disposables (world_of (disposeOutputItem None Sample.one_image)) =
    [("out-1", RevokeOnDispose 0)] /\
  calls_of 0 (world_of ((disposeOutputItem None ;;
                         disposeOutputItem None) Sample.one_image)) = 2.
Proof. repeat split. Qed.



(** C4 at the text "not json". *)
Lemma renderError_undecodable_witness :
  Sample.JSON_parse "not json" = ParseThrows (SyntaxError "Unexpected token") /\
  renderError Sample.JSON_parse (Sample.error_of "not json") 0 Sample.lone_world =
  Ok tt (with_console [SyntaxError "Unexpected token"]
           (with_document [grown [1] Sample.div; placeholder 0] Sample.lone_world)).
Proof.
  split; [reflexivity |].
  apply (renderError_undecodable Sample.JSON_parse (Sample.error_of "not json")
           0 Sample.lone_world Sample.div); reflexivity.
Defined.

(** C4 fails as stated: the text "not json" does not decode, and the
    surface, which had no child, has one afterwards. *)
Lemma renderError_undecodable_mutates :
  Sample.JSON_parse "not json" = ParseThrows (SyntaxError "Unexpected token") /\
  childNodes <$> (document Sample.lone_world !! 0) = Some [] /\
  childNodes <$>
    (document (world_of (renderError Sample.JSON_parse
                           (Sample.error_of "not json") 0 Sample.lone_world)) !! 0) = Some [1].
Proof. repeat split. Qed.

(** C5 at a cell with two slots, the first of which holds a stdout
    block: a stdout chunk goes into that block, a stderr chunk becomes a
    new block. *)
Lemma stream_coalescing_witness :
  parentElement_of Sample.two_slots 4 = Some 3 /\
  renderStream Sample.stdout 4 false Sample.two_slots =
    Ok tt (stream_appended Sample.stdout 2 Sample.stdout_block Sample.two_slots) /\
  renderStream Sample.stderr 4 true Sample.two_slots =
    Ok tt (stream_block Sample.stderr true 4 (placeholder 3) Sample.two_slots).
Proof.
  split; [reflexivity |]. split.
  - destruct (stream_coalescing Sample.stdout 4 false Sample.two_slots 3 eq_refl)
      as [Happend _].
    apply (Happend 1 2 _ eq_refl eq_refl eq_refl eq_refl eq_refl).
  - destruct (stream_coalescing Sample.stderr 4 true Sample.two_slots 3 eq_refl)
      as [_ Hblock].
    apply (Hblock _ eq_refl eq_refl).
    right. exists 1. split; [reflexivity |]. right.
    eexists 2, _. repeat split; discriminate.
Defined.

(** Two stdout chunks rendered back to back into the two slots of an
    empty cell: the second goes into the block the first has made. *)
Example two_chunks_back_to_back :
  (renderStream Sample.stdout 2 false ;; renderStream Sample.stdout 4 false)
    Sample.two_empty_slots =
  Ok tt
    [ mkNode (ElementNode "div") [] [] [] [] None [1; 3];
      with_childNodes [2] (placeholder 0);
      mkNode (ElementNode "div")
        [("output-mime-type", "application/vnd.code.notebook.stdout")] [] [] []
        (Some 1) [5; 7];
      with_childNodes [4] (placeholder 0);
      placeholder 3;
      stream_span ["output-stream"] 2 6;
      truncated_text "world" 5;
      stream_span [] 2 8;
      truncated_text "world" 7 ].
Proof. reflexivity. Qed.

(** C7 at the payload with name and message and at the one with a stack. *)
Lemma renderError_decoded_witness :
  Sample.JSON_parse Sample.type_error_text = ParsedRecord Sample.type_error /\
  renderError Sample.JSON_parse (Sample.error_of Sample.type_error_text) 0 Sample.lone_world =
    Ok tt (with_document
             [error_block [1; 2] Sample.div; placeholder 0;
              header 0 "TypeError: x is undefined"] Sample.lone_world) /\
  renderError Sample.JSON_parse (Sample.error_of Sample.trace_text) 0 Sample.lone_world =
    Ok tt (with_document
             [error_block [1; 2] Sample.div; placeholder 0;
              traceback 0 3; ansi_fragment "at f (a.js:1)" 2] Sample.lone_world).
Proof.
  split; [reflexivity |]. split.
  - apply (renderError_decoded Sample.JSON_parse (Sample.error_of Sample.type_error_text)
             0 Sample.lone_world Sample.div Sample.type_error); reflexivity.
  - apply (renderError_decoded Sample.JSON_parse (Sample.error_of Sample.trace_text)
             0 Sample.lone_world Sample.div Sample.with_trace); reflexivity.
Defined.

(** C7 fails as stated: this payload has a stack field, the empty string;
    it gets no traceback, and its name is not ignored but becomes the
    header. *)
Lemma renderError_empty_stack :
  Sample.JSON_parse Sample.empty_stack_text = ParsedRecord Sample.empty_stack /\
  stack Sample.empty_stack = Some "" /\
  renderError Sample.JSON_parse (Sample.error_of Sample.empty_stack_text) 0 Sample.lone_world =
    Ok tt (with_document
             [error_block [1; 2] Sample.div; placeholder 0; header 0 "E"]
             Sample.lone_world).
Proof. repeat split. Qed.

(** C8 at a PNG payload on a lone surface, in an untrusted world. *)
Lemma image_registers_one_disposer_witness :
  In (OutputItem.mime Sample.png) image_mimes /\
  registry_issued Sample.lone_world /\
  isTrusted Sample.lone_world = false /\
  renderOutputItem true Sample.no_markup Sample.JSON_parse Sample.quiet Sample.png 0 Sample.lone_world =
    Ok tt (with_disposables [("out-1", RevokeOnDispose 0)]
             (image_shown Sample.png 0 Sample.div Sample.lone_world)) /\
  exists w2,
    disposeOutputItem (Some "out-1")
      (with_disposables [("out-1", RevokeOnDispose 0)]
         (image_shown Sample.png 0 Sample.div Sample.lone_world)) = Ok tt w2 /\
    calls_of 0 w2 = 1.
Proof.
  assert (Hin : In (OutputItem.mime Sample.png) image_mimes) by (right; left; reflexivity).
  assert (Hreg : registry_issued Sample.lone_world) by constructor.
  split; [exact Hin |]. split; [exact Hreg |]. split; [reflexivity |].
  destruct (image_registers_one_disposer true Sample.no_markup Sample.JSON_parse Sample.quiet
              Sample.png 0 Sample.lone_world Sample.div Hin eq_refl eq_refl Hreg)
    as (_ & Hrender & _ & _ & _ & Hdispose).
  split; [exact Hrender | exact Hdispose].
Defined.


End Examples.

(** * The further properties at sample inputs *)

Module MoreExamples.
Import Dom Markup.

(** X1 at a plain-text payload on a lone surface. *)
Lemma renderText_appends_witness :
  renderText MoreSamples.plain 0 Sample.lone =
  Ok tt (text_shown MoreSamples.plain 0 Sample.div Sample.lone).
Proof. apply renderText_appends; reflexivity. Defined.

(** X15 at the text "null". *)
Lemma error_payload_null_throws_witness :
  Sample.JSON_parse "null" = ParsedNull /\
  renderOutputItem true Sample.no_markup Sample.JSON_parse Sample.quiet (Sample.error_of "null") 0
    Sample.lone_world =
  Throw (TypeError "Cannot read properties of null")
    (with_document [grown [1] Sample.div; placeholder 0] Sample.lone_world).
Proof.
  split; [reflexivity |].
  apply (error_payload_null_throws true Sample.no_markup Sample.JSON_parse Sample.quiet
           (Sample.error_of "null") 0 Sample.lone_world Sample.div); reflexivity.
Defined.

(** X2 at a cell whose first slot holds a text node. *)
Lemma renderStream_first_child_no_element_witness :
  firstChild_of MoreSamples.text_in_slot 1 = Some 2 /\
  renderStream Sample.stdout 4 false MoreSamples.text_in_slot =
  Throw (TypeError "not an element") MoreSamples.text_in_slot.
Proof.
  split; [reflexivity |].
  apply (renderStream_first_child_no_element Sample.stdout 4 false
           MoreSamples.text_in_slot 3 1 2 (mkNode (TextNode "loading") [] [] [] [] (Some 1) []));
    reflexivity.
Defined.

(** X10 at a [div] that holds one script. *)
Lemma domEval_revives_all_witness :
  inert Sample.quiet /\
  exists olds,
    Forall2 (fun node old => Sample.with_script !! node = Some old /\
                             has_tag "script" old = true)
      (getElementsByTagName_of Sample.with_script 0 "script") olds /\
    domEval false Sample.quiet 0 Sample.with_script =
      Ok tt (Sample.with_script ++ map revived olds) /\
    (getElementsByTagName_of Sample.with_script 0 "script" = [] ->
     domEval false Sample.quiet 0 Sample.with_script = Ok tt Sample.with_script).
Proof.
  assert (Hquiet : inert Sample.quiet) by (intros n d; reflexivity).
  split; [exact Hquiet |].
  apply (domEval_revives_all false Sample.quiet 0 Sample.with_script
           (mkNode (ElementNode "div") [] [] [] [] None [1])).
  - exact Hquiet.
  - reflexivity.
  - reflexivity.
  - repeat constructor.
Defined.


(** X9 at a script inside an [svg]: the old node has the attribute
    [nomodule], [getAttribute] is asked for [noModule] and finds nothing,
    and the new node has no such attribute; [type] is copied. *)
Lemma domEval_copies_attribute_witness :
  getElementsByTagName_of MoreSamples.with_svg_script 0 "script" = [2] /\
  Table.get "nomodule" (attributes MoreSamples.svg_script) = Some "nomodule" /\
  exists new (d' : Dom.t),
    domEval true Sample.quiet 0 MoreSamples.with_svg_script = Ok tt d' /\
    d' !! 4 = Some new /\
    Table.get "nomodule" (attributes new) = None /\
    Table.get "type" (attributes new) = Some "text/javascript".
Proof.
  assert (Hquiet : inert Sample.quiet) by (intros n d; reflexivity).
  assert (Hkids : Forall (fun i => i < length MoreSamples.with_svg_script) [1])
    by (repeat constructor).
  split; [reflexivity |]. split; [reflexivity |].
  destruct (domEval_copies_attribute true Sample.quiet 0 MoreSamples.with_svg_script
              (mkNode (ElementNode "div") [] [] [] [] None [1]) 2 "noModule"
              Hquiet eq_refl eq_refl Hkids eq_refl)
    as (old & new & d' & Hold & Hrun & Hnew & Hattr).
  { do 3 right. left. reflexivity. }
  injection Hold as <-.
  exists new, d'. split; [exact Hrun |]. split; [exact Hnew |].
  split; [exact Hattr |].
  clear Hattr. vm_compute in Hrun. injection Hrun as <-.
  vm_compute in Hnew. injection Hnew as <-. reflexivity.
Defined.

(** X11 at a paragraph with a script in it. *)
Lemma renderHTML_appends_one_div_witness :
  inert Sample.quiet /\
  exists d' : Dom.t,
    renderHTML true MoreSamples.parse Sample.quiet MoreSamples.page 0 Sample.lone =
      Ok tt d' /\
    d' !! 0 = Some (grown [1] Sample.div) /\
    (forall i y, i <> 0 -> Sample.lone !! i = Some y -> d' !! i = Some y) /\
    exists y, d' !! 1 = Some y /\ nodeType y = ElementNode "div" /\ parentNode y = Some 0.
Proof.
  assert (Hquiet : inert Sample.quiet) by (intros n d; reflexivity).
  split; [exact Hquiet |].
  apply (renderHTML_appends_one_div true MoreSamples.parse Sample.quiet MoreSamples.page 0
           Sample.lone Sample.div); [exact Hquiet | reflexivity | reflexivity].
Defined.

(** X12 at a one-line script, which the sample parser turns into one
    script element. *)
Lemma renderJavascript_as_markup_witness :
  MoreSamples.parse (script_markup "go()") =
    [ HNode (ElementNode "script") [("type", "application/javascript")]
        [("innerText", VStr "go()"); ("type", VStr "application/javascript")]
        [ HNode (TextNode "go()") [] [] [] ] ] /\
  renderJavascript true MoreSamples.parse Sample.quiet MoreSamples.script 0 Sample.lone =
    renderHTML true MoreSamples.parse Sample.quiet
      (OutputItem.mk "out-9" "application/javascript" [] (script_markup "go()"))
      0 Sample.lone /\
  exists d' : Dom.t,
    renderJavascript true MoreSamples.parse Sample.quiet MoreSamples.script 0 Sample.lone =
      Ok tt d' /\
    d' !! 0 = Some (grown [1] Sample.div) /\
    (forall i y, i <> 0 -> Sample.lone !! i = Some y -> d' !! i = Some y).
Proof.
  split; [reflexivity |].
  destruct (renderJavascript_as_markup true MoreSamples.parse Sample.quiet
              MoreSamples.script 0 Sample.lone Sample.div eq_refl eq_refl)
    as [Hsame Hrun].
  split; [exact Hsame |].
  apply Hrun. intros n d. reflexivity.
Defined.

(** X3 at three renders in a world with one registered disposer. *)
Lemma renders_never_dispose_witness :
  revoked (host_calls true Sample.no_markup Sample.JSON_parse Sample.quiet
             [Render Sample.png 0; Render Sample.html 0; Render Sample.stdout 0]
             Sample.one_image) = [].
Proof.
  apply (renders_never_dispose true Sample.no_markup Sample.JSON_parse Sample.quiet
           [Render Sample.png 0; Render Sample.html 0; Render Sample.stdout 0]
           Sample.one_image).
  reflexivity.
Defined.

(** X4 at a stderr payload. *)
Lemma only_images_touch_resources_witness :
  ~ In (OutputItem.mime Sample.stderr) image_mimes /\
  same_resources Sample.one_image
    (world_of (renderOutputItem true Sample.no_markup Sample.JSON_parse Sample.quiet
                 Sample.stderr 0 Sample.one_image)).
Proof.
  assert (H : ~ In (OutputItem.mime Sample.stderr) image_mimes)
    by (cbn; intuition discriminate).
  split; [exact H |].
  now apply only_images_touch_resources.
Defined.

(** X6 at the empty-string id. *)
Lemma bulk_dispose_calls_each_once_witness :
  registry_distinct Sample.one_image /\
  calls_of 0 (world_of (disposeOutputItem (Some "") Sample.one_image)) = 1.
Proof.
  assert (H : registry_distinct Sample.one_image) by apply NoDup_singleton.
  split; [exact H |].
  apply (bulk_dispose_calls_each_once (Some "") (RevokeOnDispose 0) Sample.one_image).
  - reflexivity.
  - exact H.
  - left. reflexivity.
Defined.

(** X7 at an id that was never registered. *)
Lemma dispose_unknown_id_witness :
  Table.get "out-99" (disposables Sample.one_image) = None /\
  disposeOutputItem (Some "out-99") Sample.one_image = Ok tt Sample.one_image.
Proof.
  split; [reflexivity |].
  apply dispose_unknown_id; [discriminate | reflexivity].
Defined.

(** X13 at an empty cell with two slots. *)
Lemma two_chunks_coalesce_witness :
  (renderStream Sample.stdout 2 false ;; renderStream Sample.stdout 4 false)
    Sample.two_empty_slots =
  Ok tt (stream_appended Sample.stdout 2
           (tagged_block "application/vnd.code.notebook.stdout" false 5
              (placeholder 1))
           (stream_block Sample.stdout false 2 (placeholder 1) Sample.two_empty_slots)).
Proof.
  apply (two_chunks_coalesce Sample.stdout Sample.stdout false false
           Sample.two_empty_slots 2 4 1 3 (placeholder 1));
    try reflexivity; try discriminate.
  intros y [= <-]. discriminate.
Defined.

(** X14 at a cell with three slots, the first of which holds a stdout block. *)
Lemma third_chunk_starts_anew_witness :
  (renderStream Sample.stdout 4 false ;; renderStream Sample.stdout 6 false)
    MoreSamples.three_slots =
  Ok tt (stream_block Sample.stdout false 6 (placeholder 5)
           (stream_appended Sample.stdout 2
              (mkNode (ElementNode "div")
                 [("output-mime-type", "application/vnd.code.notebook.stdout")]
                 [] [] [] (Some 1) [7])
              MoreSamples.three_slots)).
Proof.
  apply (third_chunk_starts_anew Sample.stdout Sample.stdout false false
           MoreSamples.three_slots 2 _ 4 6 1 3 5 (placeholder 3) (placeholder 5));
    try reflexivity; try discriminate.
  intros y [= <-]. discriminate.
Defined.

End MoreExamples.
